(** * A shallow embedding of the PSF photometry pipeline

    The development follows the Python sources file by file:
    - [Photometry]      : [photometry.py]  (candidate filters, FWHM estimate)
    - [ScopesimHelper]  : [thesis_lib/scopesim_helper.py] (coordinate conversions)
    - [Hypertuning]     : [hypertuning.py] (objective, resume logic, job collection)

    Conventions.  In [photometry.py] and [hypertuning.py] a Python [float]
    (and a numpy [float64]) is read as a real number of [R]: comparisons are
    the exact ones, arithmetic is the ideal one.  The coordinate conversions
    of [scopesim_helper.py] are computed in binary64, on [PrimFloat].
    Python [int]s are [Z].  An astropy [Table] is the list of its rows, a numpy
    boolean mask is a [list bool].  Code that can raise lives in the [result]
    monad below. *)

From Stdlib Require Import Reals Lra ZArith List Bool Lia.
From stdpp Require Import gmap strings.
From Stdlib Require PrimFloat.
Import ListNotations.

(** ** Python values and exceptions *)

Module Py.

Inductive exn : Type :=
| AssertionError
| TypeError
| ValueError
| FileNotFoundError
| KeyboardInterrupt
| Exception (msg : string).

Inductive result (A : Type) : Type :=
| Ok (a : A)
| Raise (e : exn).
Arguments Ok {A} a.
Arguments Raise {A} e.

Definition bind {A B : Type} (k : A -> result B) (m : result A) : result B :=
  match m with
  | Ok a => k a
  | Raise e => Raise e
  end.

#[global] Instance result_bind : MBind result := @bind.
#[global] Instance result_ret : MRet result := @Ok.

(** [assert c] *)
Definition assert (c : bool) : result unit :=
  if c then Ok tt else Raise AssertionError.

(** A number as the optimizer receives it: a float or a Python int. *)
Inductive number : Type :=
| Float (r : R)
| Int (z : Z).

#[global] Instance R_eq_dec : EqDecision R := Req_dec_T.
#[global] Instance number_eq_dec : EqDecision number.
Proof. solve_decision. Defined.

Definition Rgtb (a b : R) : bool := if Rgt_dec a b then true else false.
Definition Rltb (a b : R) : bool := if Rlt_dec a b then true else false.
Definition Rleb (a b : R) : bool := if Rle_dec a b then true else false.

(** [np.sum], [c ** 2], [np.sqrt] on a column of floats *)
Definition np_sum (c : list R) : R := fold_left Rplus c 0%R.
Definition np_pow2 (c : list R) : list R := map (fun a => (a ^ 2)%R) c.
Definition np_sqrt (a : R) : R := sqrt a.

(** The root of the sum of the squares, as a formula. *)
Definition sum_of_squares (l : list R) : R :=
  fold_right (fun o acc => (o * o + acc)%R) 0%R l.
Definition root_sum_of_squares (l : list R) : R := sqrt (sum_of_squares l).

End Py.

(** ** photometry.py *)

Module Photometry.
Import Py.
Local Open Scope R_scope.

(** Distances as [cKDTree.query] reports them: a float, or [inf] for a
    neighbour that does not exist. *)
Inductive Dist : Type :=
| Fin (d : R)
| Inf.

(** A row of a peak table: the columns the pipeline reads ([x], [y]), the
    star finder's [id], and the column ['nearest'] that [cut_close_stars]
    adds ([None]: the table has no such column). *)
Record Row : Type := mkRow {
  row_id : Z;
  row_x : R;
  row_y : R;
  row_nearest : option Dist
}.

Definition Table : Type := list Row.

(** *** numpy column operations *)

(** [table[name]] *)
Definition col {A : Type} (f : Row -> A) (t : Table) : list A := map f t.

(** [c > v], [c < v] for a column [c] and a scalar [v] *)
Definition np_gt (c : list R) (v : R) : list bool := map (fun a => Rgtb a v) c.
Definition np_lt (c : list R) (v : R) : list bool := map (fun a => Rltb a v) c.

(** [m1 & m2] *)
Definition np_and (m1 m2 : list bool) : list bool :=
  map (fun p => fst p && snd p) (combine m1 m2).

(** [table[mask]] : the rows at which the mask is [True] *)
Definition getitem_mask (t : Table) (mask : list bool) : Table :=
  map fst (List.filter snd (combine t mask)).

(** *** magic parameters *)
Definition clip_sigma : R := 3.
Definition threshold_factor : R := 3.
Definition box_size : Z := 10.
Definition cutout_size : Z := 50.
Definition oversampling : Z := 4.
Definition epsfbuilder_iters : Z := 3.

(** *** cut_edges *)
Definition cut_edges (peak_table : Table) (box_size image_size : Z) : Table :=
  let half := IZR box_size / 2 in
  let x := col row_x peak_table in
  let y := col row_y peak_table in
  let mask :=
    np_and (np_and (np_and (np_gt x half) (np_lt x (IZR image_size - half)))
                   (np_gt y half))
           (np_lt y (IZR image_size - half)) in
  getitem_mask peak_table mask.

(** The table stage of [make_stars_guess]: the peaks of the star finder,
    cut at the edges with the configured cutout size and [image.shape[0]];
    the neighbour filter is commented out there. *)
Definition make_stars_guess_table (peaks_tbl : Table) (image_shape : Z * Z) : Table :=
  let peaks_tbl := cut_edges peaks_tbl cutout_size (fst image_shape) in
  let stars_tbl := peaks_tbl in
  stars_tbl.

(** The property of a row that the edge filter is meant to decide. *)
Definition inside (b s : Z) (r : Row) : Prop :=
  IZR b / 2 < row_x r < IZR s - IZR b / 2 /\
  IZR b / 2 < row_y r < IZR s - IZR b / 2.

Definition insideb (b s : Z) (r : Row) : bool :=
  Rgtb (row_x r) (IZR b / 2) && Rltb (row_x r) (IZR s - IZR b / 2) &&
  Rgtb (row_y r) (IZR b / 2) && Rltb (row_y r) (IZR s - IZR b / 2).

(** *** cut_close_stars *)

(** Euclidean distance, the metric of [cKDTree.query] (p = 2). *)
Definition euclid (p q : R * R) : R :=
  sqrt ((fst p - fst q) * (fst p - fst q) + (snd p - snd q) * (snd p - snd q)).

Fixpoint insert_sorted (d : R) (l : list R) : list R :=
  match l with
  | [] => [d]
  | e :: l' => if Rleb d e then d :: l else e :: insert_sorted d l'
  end.

Definition sort_dists (l : list R) : list R := fold_right insert_sorted [] l.

(** [cKDTree(x_y)]: the tree answers queries about the points it was built
    from, so it is modelled by that list of points. *)
Definition cKDTree : Type := list (R * R).

(** [tree.query(q, k=[k])]: the distance from [q] to its [k]-th nearest
    point of the tree (counted from 1), [inf] when the tree has fewer than
    [k] points. *)
Definition query (tree : cKDTree) (q : R * R) (k : nat) : Dist :=
  match nth_error (sort_dists (map (euclid q) tree)) (k - 1) with
  | Some d => Fin d
  | None => Inf
  end.

(** [row['nearest'] = d] *)
Definition set_nearest (d : Dist) (r : Row) : Row :=
  {| row_id := row_id r; row_x := row_x r; row_y := row_y r;
     row_nearest := Some d |}.

Definition Dist_gtb (a : Dist) (c : R) : bool :=
  match a with
  | Fin d => Rgtb d c
  | Inf => true
  end.

Definition Dist_ltb (a : Dist) (c : R) : bool :=
  match a with
  | Fin d => Rltb d c
  | Inf => false
  end.

(** One cell of [peak_table['nearest'] > cutoff_dist]; the column exists
    whenever the comparison is made. *)
Definition nearest_gt (cutoff_dist : R) (cell : option Dist) : bool :=
  match cell with
  | Some d => Dist_gtb d cutoff_dist
  | None => false
  end.

(** [peak_table['nearest'] = v] for a scalar [v]: every row gets the cell.
    A peak table without rows has no ['nearest'] column yet, and astropy
    refuses to add a scalar column to a table without rows ([TypeError]). *)
Definition setitem_nearest (peak_table : Table) (v : Dist) : result Table :=
  match peak_table with
  | [] => Raise TypeError
  | _ :: _ => Ok (map (set_nearest v) peak_table)
  end.

Definition cut_close_stars (peak_table : Table) (cutoff_dist : R) : result Table :=
  peak_table ← setitem_nearest peak_table (Fin 0);
  let x_y := combine (col row_x peak_table) (col row_y peak_table) in
  let lookup_tree : cKDTree := x_y in
  let peak_table :=
    map (fun row =>
           let dist := query lookup_tree (row_x row, row_y row) 2 in
           set_nearest dist row) peak_table in
  let peak_table :=
    getitem_mask peak_table
      (map (nearest_gt cutoff_dist) (col row_nearest peak_table)) in
  Ok peak_table.

(** The nearest-neighbour distance of the candidate at index [i]: the
    least distance to any other row of the table, [inf] for a lone row. *)
Definition pos (r : Row) : R * R := (row_x r, row_y r).

Definition others (t : Table) (i : nat) : Table := firstn i t ++ skipn (S i) t.

Definition Dist_min (a b : Dist) : Dist :=
  match a, b with
  | Fin d, Fin e => if Rleb d e then Fin d else Fin e
  | Fin d, Inf => Fin d
  | Inf, _ => b
  end.

Definition min_dist (l : list R) : Dist :=
  fold_right (fun d acc => Dist_min (Fin d) acc) Inf l.

Definition nn_dist (t : Table) (i : nat) (r : Row) : Dist :=
  min_dist (map (fun o => euclid (pos r) (pos o)) (others t i)).

Definition indexed {A : Type} (l : list A) : list (nat * A) :=
  combine (seq 0 (length l)) l.

(** The table with every row's ['nearest'] cell filled in. *)
Definition annotated (t : Table) : Table :=
  map (fun ir => set_nearest (nn_dist t (fst ir) (snd ir)) (snd ir)) (indexed t).

(** The neighbour filter as its description reads: a row goes exactly
    when its nearest neighbour is closer than [d]. *)
Definition cut_closer_than (t : Table) (d : R) : Table :=
  List.filter (fun r => match row_nearest r with
                        | Some n => negb (Dist_ltb n d)
                        | None => false
                        end) (annotated t).

(** *** FWHM_estimate *)

Definition ndarray : Type := list (list R).

(** [a.shape] of a two-dimensional array *)
Definition shape (a : ndarray) : Z * Z :=
  (Z.of_nat (length a), Z.of_nat (length (hd [] a))).

Record EPSFModel : Type := mkEPSFModel {
  data : ndarray;
  epsf_oversampling : Z * Z
}.

(** What [FWHM_estimate] receives: an object with a [psfmodel] attribute. *)
Record PSF : Type := mkPSF { psfmodel : EPSFModel }.

Record Gaussian2D : Type := mkGaussian2D {
  amplitude : R;
  x_mean : R;
  y_mean : R;
  x_stddev : R;
  y_stddev : R;
  y_stddev_tied : bool     (* [y_stddev.tied = lambda model: model.x_stddev] *)
}.

Definition gaussian_sigma_to_fwhm : R := 2 * sqrt (2 * ln 2).

Definition x_fwhm (g : Gaussian2D) : R := x_stddev g * gaussian_sigma_to_fwhm.

(** [fitting.LevMarLSQFitter()(model, x, y, z)] on the grid
    [np.mgrid[:dim, :dim]]; the fitter is astropy's. *)
Definition Fitter : Type := Gaussian2D -> Z -> ndarray -> result Gaussian2D.

Definition gauss_in (center : Z) : Gaussian2D :=
  {| amplitude := 1; x_mean := IZR center; y_mean := IZR center;
     x_stddev := 5; y_stddev := 5; y_stddev_tied := true |}.

Definition FWHM_estimate (LevMarLSQFitter : Fitter) (psf : PSF) : result R :=
  let m := psfmodel psf in
  _ ← assert (fst (shape (data m)) =? snd (shape (data m)))%Z;
  _ ← assert (fst (epsf_oversampling m) =? snd (epsf_oversampling m))%Z;
  let dim := fst (shape (data m)) in
  let center := Z.quot dim 2 in
  gauss_out ← LevMarLSQFitter (gauss_in center) dim (data m);
  Ok (x_fwhm gauss_out / IZR (fst (epsf_oversampling m))).

(** The two assertions at the head of [FWHM_estimate]. *)
Definition square_kernel (psf : PSF) : Prop :=
  fst (shape (data (psfmodel psf))) = snd (shape (data (psfmodel psf))).

Definition symmetric_oversampling (psf : PSF) : Prop :=
  fst (epsf_oversampling (psfmodel psf)) = snd (epsf_oversampling (psfmodel psf)).

(** The fit that [FWHM_estimate] asks for: a Gaussian centred on the kernel
    with [y_stddev] tied to [x_stddev], on the kernel's own grid. *)
Definition kernel_fit (fit : Fitter) (psf : PSF) : result Gaussian2D :=
  let dim := fst (shape (data (psfmodel psf))) in
  fit (gauss_in (Z.quot dim 2)) dim (data (psfmodel psf)).

(** The first of a list of sorted distances, [inf] when there is none. *)
Definition hd_dist (l : list R) : Dist :=
  match l with
  | [] => Inf
  | e :: _ => Fin e
  end.

(** *** make_epsf_fit: the smoothing kernel *)

(** [np.linspace(start, stop, num)] *)
Definition np_linspace (start stop : R) (num : nat) : list R :=
  map (fun i => start + INR i * ((stop - start) / INR (num - 1))) (seq 0 num).

(** [np.meshgrid(xs, ys)]: row [i], column [j] holds [xs[j]], resp. [ys[i]]. *)
Definition np_meshgrid (xs ys : list R) : ndarray * ndarray :=
  (map (fun _ => xs) ys, map (fun y => map (fun _ => y) xs) ys).

(** Elementwise operations on two-dimensional arrays. *)
Definition np_map (f : R -> R) (a : ndarray) : ndarray := map (map f) a.

Definition np_map2 (f : R -> R -> R) (a b : ndarray) : ndarray :=
  map (fun rows => map (fun p => f (fst p) (snd p)) (combine (fst rows) (snd rows)))
      (combine a b).

(** [np.sum(a)] over every element of a two-dimensional array, [a / s] *)
Definition np_sum2 (a : ndarray) : R := np_sum (concat a).
Definition np_div (a : ndarray) (s : R) : ndarray := np_map (fun v => v / s) a.

Definition gauss_kernel : ndarray :=
  let xy := np_meshgrid (np_linspace (-1) 1 5) (np_linspace (-1) 1 5) in
  let x := fst xy in
  let y := snd xy in
  let d := np_map sqrt (np_map2 Rplus (np_map2 Rmult x x) (np_map2 Rmult y y)) in
  let sigma := 1 in
  let mu := 0 in
  np_map (fun d => exp (- ((d - mu) ^ 2 / (2 * sigma ^ 2)))) d.

(** [smoothing_kernel=gauss_kernel/np.sum(gauss_kernel)] *)
Definition smoothing_kernel : ndarray := np_div gauss_kernel (np_sum2 gauss_kernel).

End Photometry.

(** ** thesis_lib/scopesim_helper.py *)

Module ScopesimHelper.
Import PrimFloat.
Local Open Scope float_scope.








End ScopesimHelper.

(** The same two formulas in exact arithmetic, as real functions. *)

Module ScopesimHelperExact.
Local Open Scope R_scope.




End ScopesimHelperExact.

(** ** hypertuning.py *)

Module Hypertuning.
Import Py.
Local Open Scope R_scope.

Definition image_name : string := "scopesim_grid_16_perturb2_mag18_24".

(** *** The objective

    [Config], [util], [testdata_generators] and [run_photometry] belong to
    [thesis_lib]; the objective only calls them, so they are parameters
    here.  Each call may raise. *)

Record Config (Kernel : Type) : Type := mkConfig {
  use_catalogue_positions : bool;
  photometry_iterations : Z;
  oversampling : Z;
  smoothing : Kernel;
  fitshape : Z;
  cutout_size : Z;
  epsfbuilder_iters : Z;
  image_folder : string
}.
Arguments mkConfig {Kernel}.
Arguments use_catalogue_positions {Kernel}.
Arguments photometry_iterations {Kernel}.
Arguments oversampling {Kernel}.
Arguments smoothing {Kernel}.
Arguments fitshape {Kernel}.
Arguments cutout_size {Kernel}.
Arguments epsfbuilder_iters {Kernel}.
Arguments image_folder {Kernel}.

(** [config.field = v] *)
Definition set_use_catalogue_positions {K} (v : bool) (c : Config K) : Config K :=
  mkConfig v (photometry_iterations c) (oversampling c) (smoothing c) (fitshape c)
    (cutout_size c) (epsfbuilder_iters c) (image_folder c).
Definition set_photometry_iterations {K} (v : Z) (c : Config K) : Config K :=
  mkConfig (use_catalogue_positions c) v (oversampling c) (smoothing c) (fitshape c)
    (cutout_size c) (epsfbuilder_iters c) (image_folder c).
Definition set_oversampling {K} (v : Z) (c : Config K) : Config K :=
  mkConfig (use_catalogue_positions c) (photometry_iterations c) v (smoothing c)
    (fitshape c) (cutout_size c) (epsfbuilder_iters c) (image_folder c).
Definition set_smoothing {K} (v : K) (c : Config K) : Config K :=
  mkConfig (use_catalogue_positions c) (photometry_iterations c) (oversampling c) v
    (fitshape c) (cutout_size c) (epsfbuilder_iters c) (image_folder c).
Definition set_fitshape {K} (v : Z) (c : Config K) : Config K :=
  mkConfig (use_catalogue_positions c) (photometry_iterations c) (oversampling c)
    (smoothing c) v (cutout_size c) (epsfbuilder_iters c) (image_folder c).
Definition set_cutout_size {K} (v : Z) (c : Config K) : Config K :=
  mkConfig (use_catalogue_positions c) (photometry_iterations c) (oversampling c)
    (smoothing c) (fitshape c) v (epsfbuilder_iters c) (image_folder c).
Definition set_epsfbuilder_iters {K} (v : Z) (c : Config K) : Config K :=
  mkConfig (use_catalogue_positions c) (photometry_iterations c) (oversampling c)
    (smoothing c) (fitshape c) (cutout_size c) v (image_folder c).

(** The interface of [thesis_lib] that [objective] uses. *)
Class ThesisLib : Type := {
  Kernel : Type;
  Image : Type;
  SourceTable : Type;
  PhotometryResult : Type;
  MatchedRow : Type;
  Recipe : Type;
  (** [Config()] *)
  Config_new : result (Config Kernel);
  (** [util.make_gauss_kernel(sigma)] *)
  make_gauss_kernel : R -> result Kernel;
  (** [testdata_generators.benchmark_images[image_name]] *)
  image_recipe : Recipe;
  (** [testdata_generators.read_or_generate_image(recipe, name, folder)] *)
  read_or_generate_image : Recipe -> string -> string -> result (Image * SourceTable);
  (** [run_photometry(image, input_table, name, config)] *)
  run_photometry : Image -> SourceTable -> string -> Config Kernel -> result PhotometryResult;
  (** [result.result_table] *)
  result_table : PhotometryResult -> SourceTable;
  (** [util.match_observation_to_source(input_table, result_table)] *)
  match_observation_to_source : SourceTable -> SourceTable -> result (list MatchedRow);
  (** [row['offset']] *)
  offset : MatchedRow -> R
}.

Section Objective.
Context `{lib : ThesisLib}.

(** The statements of the [try] block. *)
Definition objective_try (cutout_size fitshape_half : Z) (sigma : R) (iters : Z)
  : result R :=
  config ← Config_new;
  let config := set_use_catalogue_positions true config in
  let config := set_photometry_iterations 1 config in
  let config := set_oversampling 1 config in
  kernel ← make_gauss_kernel sigma;
  let config := set_smoothing kernel config in
  let config := set_fitshape (fitshape_half * 2 + 1) config in
  let config := set_cutout_size cutout_size config in
  let config := set_epsfbuilder_iters iters config in
  '(image, input_table) ← read_or_generate_image image_recipe image_name (image_folder config);
  result ← run_photometry image input_table image_name config;
  result_table ← match_observation_to_source input_table (result_table result);
  let loss := np_sqrt (np_sum (np_pow2 (map offset result_table))) in
  Ok loss.

(** [try: ... except: return 100] *)
Definition objective (cutout_size fitshape_half : Z) (sigma : R) (iters : Z)
  : result number :=
  match objective_try cutout_size fitshape_half sigma iters with
  | Ok loss => Ok (Float loss)
  | Raise _ => Ok (Int 100)
  end.

(** The configuration that the objective hands to [run_photometry]. *)
Definition objective_config (c : Config Kernel) (kernel : Kernel)
  (cutout_size fitshape_half iters : Z) : Config Kernel :=
  mkConfig true 1%Z 1%Z kernel (fitshape_half * 2 + 1)%Z cutout_size iters
    (image_folder c).

(** Some statement of the [try] block raises [e]. *)
Definition some_step_raises (cutout_size fitshape_half : Z) (sigma : R) (iters : Z)
  (e : exn) : Prop :=
  Config_new = Raise e \/
  exists c, Config_new = Ok c /\
  (make_gauss_kernel sigma = Raise e \/
   exists k, make_gauss_kernel sigma = Ok k /\
   (read_or_generate_image image_recipe image_name (image_folder c) = Raise e \/
    exists im tbl, read_or_generate_image image_recipe image_name (image_folder c)
                   = Ok (im, tbl) /\
    (run_photometry im tbl image_name
       (objective_config c k cutout_size fitshape_half iters) = Raise e \/
     exists res, run_photometry im tbl image_name
                   (objective_config c k cutout_size fitshape_half iters) = Ok res /\
     match_observation_to_source tbl (result_table res) = Raise e))).

(** Every statement of the [try] block returns; [matched] is the matched
    result table. *)
Definition all_steps_return (cutout_size fitshape_half : Z) (sigma : R) (iters : Z)
  (matched : list MatchedRow) : Prop :=
  exists c k im tbl res,
    Config_new = Ok c /\
    make_gauss_kernel sigma = Ok k /\
    read_or_generate_image image_recipe image_name (image_folder c) = Ok (im, tbl) /\
    run_photometry im tbl image_name
      (objective_config c k cutout_size fitshape_half iters) = Ok res /\
    match_observation_to_source tbl (result_table res) = Ok matched.

End Objective.

(** Two stand-ins for [thesis_lib], to run the objective on: one in which
    every call returns and the matcher reports the given offsets, one in
    which the photometry fails. *)
Definition lib_returning (offsets : list R) : ThesisLib := {|
  Kernel := unit; Image := unit; SourceTable := unit; PhotometryResult := unit;
  MatchedRow := R; Recipe := unit;
  Config_new := Ok (mkConfig false 3 4 tt 25 50 3 "test_images");
  make_gauss_kernel := fun _ => Ok tt;
  image_recipe := tt;
  read_or_generate_image := fun _ _ _ => Ok (tt, tt);
  run_photometry := fun _ _ _ _ => Ok tt;
  result_table := fun _ => tt;
  match_observation_to_source := fun _ _ => Ok offsets;
  offset := fun r => r
|}.

Definition lib_failing : ThesisLib := {|
  Kernel := unit; Image := unit; SourceTable := unit; PhotometryResult := unit;
  MatchedRow := R; Recipe := unit;
  Config_new := Ok (mkConfig false 3 4 tt 25 50 3 "test_images");
  make_gauss_kernel := fun _ => Ok tt;
  image_recipe := tt;
  read_or_generate_image := fun _ _ _ => Ok (tt, tt);
  run_photometry := fun _ _ _ _ => Raise (Exception "fit did not converge");
  result_table := fun _ => tt;
  match_observation_to_source := fun _ _ => Ok [];
  offset := fun r => r
|}.

(** *** The optimizer and its saved state *)

Inductive Dimension : Type :=
| Integer (low high : Z)
| Real (low high : R).

(** [skopt.Optimizer]: its settings and the observations it was told
    ([Xi], [yi]). *)
Record Optimizer : Type := mkOptimizer {
  dimensions : list Dimension;
  n_jobs : Z;
  random_state : Z;
  base_estimator : string;
  n_initial_points : Z;
  initial_point_generator : string;
  Xi : list (list number);
  yi : list number
}.

(** [Optimizer(...)]: no observations yet. *)
Definition Optimizer_new (dimensions : list Dimension) (n_jobs random_state : Z)
  (base_estimator : string) (n_initial_points : Z) (initial_point_generator : string)
  : Optimizer :=
  mkOptimizer dimensions n_jobs random_state base_estimator n_initial_points
    initial_point_generator [] [].

(** [optimizer.tell(x, y)] records one observation. *)
Definition tell (o : Optimizer) (x : list number) (y : number) : Optimizer :=
  mkOptimizer (dimensions o) (n_jobs o) (random_state o) (base_estimator o)
    (n_initial_points o) (initial_point_generator o) (Xi o ++ [x]) (yi o ++ [y]).

Definition n_observations (o : Optimizer) : nat := length (Xi o).

Definition result_filename : string := "optimize_result_RF_expanded.pkl".

Section Resume.
(** The contents of a file, and [dill]'s reading and writing of an
    optimizer. *)
Variable Blob : Type.
Variable dill_load : Blob -> result Optimizer.
Variable dill_dump : Optimizer -> Blob.

(** The working directory: file name to contents. *)
Definition os_path_exists (fs : gmap string Blob) (path : string) : bool :=
  bool_decide (is_Some (fs !! path)).

(** [open(path, 'rb')] *)
Definition open_rb (fs : gmap string Blob) (path : string) : result Blob :=
  match fs !! path with
  | Some f => Ok f
  | None => Raise FileNotFoundError
  end.

(** The module-level statements that bind [optimizer]. *)
Definition optimizer (fs : gmap string Blob) : result Optimizer :=
  if os_path_exists fs result_filename then
    f ← open_rb fs result_filename;
    dill_load f
  else
    Ok (Optimizer_new
          [Integer 5 40; Integer 5 15; Real (20 / 100) (4 / 10); Integer 5 30]
          12 1 "RF" 15 "random").

(** [with open(result_filename, 'wb') as f: dill.dump(optimizer, f)] *)
Definition save (fs : gmap string Blob) (o : Optimizer) : gmap string Blob :=
  <[result_filename := dill_dump o]> fs.

End Resume.

(** *** Collecting finished jobs *)

(** [p.apply_async(...)] returns a fresh [AsyncResult]; it is identified by
    a handle, and two of them are equal only when they are the same object. *)
Record AsyncResult : Type := mkAsyncResult { handle : nat }.

(** [Job = namedtuple('Job', ('result', 'args'))] *)
Record Job : Type := mkJob {
  result_ : AsyncResult;
  args : list number
}.

#[global] Instance AsyncResult_eq_dec : EqDecision AsyncResult.
Proof. solve_decision. Defined.
#[global] Instance Job_eq_dec : EqDecision Job.
Proof. solve_decision. Defined.

(** The pool as the driver sees it: the handles whose job has finished, with
    the value [get()] returns. *)
Abbreviation Pool := (gmap nat number).

Definition ready (p : Pool) (r : AsyncResult) : bool :=
  bool_decide (is_Some (p !! handle r)).

Definition not_ready (p : Pool) (job : Job) : bool := negb (ready p (result_ job)).

(** [l.remove(x)]: drops the first item equal to [x], [ValueError] when
    there is none. *)
Fixpoint list_remove (x : Job) (l : list Job) : option (list Job) :=
  match l with
  | [] => None
  | y :: l' => if decide (x = y) then Some l'
               else l'' ← list_remove x l'; Some (y :: l'')
  end.

(** [for job in jobs: if job.result.ready(): tell(...); jobs.remove(job)].
    The list iterator keeps an index [i] into the list it walks, reads
    [jobs[i]] from the list as it is at that moment, and stops once [i] is
    past its end. *)
Fixpoint collect_from (fuel : nat) (p : Pool) (i : nat) (jobs : list Job)
  (o : Optimizer) : result (list Job * Optimizer) :=
  match fuel with
  | O => Ok (jobs, o)
  | S fuel' =>
    match nth_error jobs i with
    | None => Ok (jobs, o)
    | Some job =>
      match p !! handle (result_ job) with
      | Some v =>
        let o := tell o (args job) v in
        match list_remove job jobs with
        | Some jobs => collect_from fuel' p (S i) jobs o
        | None => Raise ValueError
        end
      | None => collect_from fuel' p (S i) jobs o
      end
    end
  end.

(** One pass of the loop; it makes at most [length jobs] steps. *)
Definition collect (p : Pool) (jobs : list Job) (o : Optimizer)
  : result (list Job * Optimizer) :=
  collect_from (length jobs) p 0 jobs o.

(** The job was reported to the optimizer. *)
Definition told (o : Optimizer) (job : Job) : Prop := In (args job) (Xi o).

(** Three outstanding jobs, and a pool in which the first two have finished
    while the third, submitted last, is still running. *)
Definition job_a : Job :=
  mkJob (mkAsyncResult 0) [Int 20; Int 7; Float (3 / 10); Int 10].
Definition job_b : Job :=
  mkJob (mkAsyncResult 1) [Int 30; Int 9; Float (3 / 10); Int 12].
Definition job_c : Job :=
  mkJob (mkAsyncResult 2) [Int 35; Int 11; Float (1 / 4); Int 20].
Definition two_finished : Pool :=
  <[0%nat := Float 2]> (<[1%nat := Float 3]> ∅).
Definition fresh_optimizer : Optimizer :=
  Optimizer_new [Integer 5 40; Integer 5 15; Real (20 / 100) (4 / 10); Integer 5 30]
    12 1 "RF" 15 "random".

(** *** The rest of the driver *)

Definition n_procs : nat := 10.

(** [sum(map(not_ready, jobs))] *)
Definition count_not_ready (p : Pool) (jobs : list Job) : nat :=
  list_sum (map (fun job => if not_ready p job then 1%nat else 0%nat) jobs).

(** The pass over the outstanding jobs, told as a walk down the list: a
    finished job is reported and dropped, and the job behind it is passed
    over without being looked at. *)
Fixpoint collect_skipping (p : Pool) (jobs : list Job) (o : Optimizer)
  : list Job * Optimizer :=
  match jobs with
  | [] => ([], o)
  | job :: rest =>
    match p !! handle (result_ job) with
    | Some v =>
      let o := tell o (args job) v in
      match rest with
      | [] => ([], o)
      | next :: rest' =>
        let lo := collect_skipping p rest' o in (next :: fst lo, snd lo)
      end
    | None =>
      let lo := collect_skipping p rest o in (job :: fst lo, snd lo)
    end
  end.

(** [for job in jobs: optimizer.tell(job.args, job.result.get())] after the
    main loop; [get()] waits for the job, [value] is what it then returns. *)
Definition tell_all (value : AsyncResult -> number) (jobs : list Job)
  (o : Optimizer) : Optimizer :=
  fold_left (fun o job => tell o (args job) (value (result_ job))) jobs o.

Section Driver.
(** [optimizer.ask()] at the [i]-th evaluation (skopt's own state is not part
    of [Optimizer], the index stands for it), the pool as the [i]-th pass
    finds it, and the value each job returns in the end. *)
Variable ask : nat -> Optimizer -> list number.
Variable pool_at : nat -> Pool.
Variable value : AsyncResult -> number.

(** [n] rounds of the body of [for i in range(500)], from round [i] on: ask,
    submit (a fresh [AsyncResult]), one pass over the jobs.
    [optimizer.update_next()] changes skopt's own state only, and the
    throttling [while] only sleeps; neither changes the list or the
    observations. *)
Fixpoint submit_and_collect (n i : nat) (jobs : list Job) (o : Optimizer)
  : result (list Job * Optimizer) :=
  match n with
  | O => Ok (jobs, o)
  | S n' =>
    let args := ask i o in
    let jobs := jobs ++ [mkJob (mkAsyncResult i) args] in
    jo ← collect (pool_at i) jobs o;
    submit_and_collect n' (S i) (fst jo) (snd jo)
  end.

(** The points that those [n] rounds ask the optimizer for, in the order
    they are asked (and printed): each comes from [ask] on the optimizer as
    the passes before it have left it. *)
Fixpoint asked_points (n i : nat) (jobs : list Job) (o : Optimizer)
  : list (list number) :=
  match n with
  | O => []
  | S n' =>
    let args := ask i o in
    let jobs := jobs ++ [mkJob (mkAsyncResult i) args] in
    match collect (pool_at i) jobs o with
    | Ok jo => args :: asked_points n' (S i) (fst jo) (snd jo)
    | Raise _ => [args]
    end
  end.

(** What the driver's list looks like when round [i] begins: distinct jobs,
    each submitted in an earlier round. *)
Definition submitted_before (i : nat) (jobs : list Job) : Prop :=
  List.NoDup jobs /\ Forall (fun job => (handle (result_ job) < i)%nat) jobs.

(** The [try] block of [__main__], when no [KeyboardInterrupt] arrives. *)
Definition main_loop (o : Optimizer) : result Optimizer :=
  jo ← submit_and_collect 500 0 [] o;
  Ok (tell_all value (fst jo) (snd jo)).

End Driver.

(** The whole script: bind [optimizer], run the loop, save. *)
Definition script (Blob : Type) (dill_load : Blob -> result Optimizer)
  (dill_dump : Optimizer -> Blob) (ask : nat -> Optimizer -> list number)
  (pool_at : nat -> Pool) (value : AsyncResult -> number) (fs : gmap string Blob)
  : result (gmap string Blob) :=
  o ← optimizer Blob dill_load fs;
  o ← main_loop ask pool_at value o;
  Ok (save Blob dill_dump fs o).

(** *** What the objective asks of [run_photometry] *)

(** [lib] with a [run_photometry] that refuses configurations outside [P]. *)
Definition guard_run_photometry (lib : ThesisLib)
  (P : Config (@Kernel lib) -> bool) : ThesisLib := {|
  Kernel := @Kernel lib; Image := @Image lib; SourceTable := @SourceTable lib;
  PhotometryResult := @PhotometryResult lib; MatchedRow := @MatchedRow lib;
  Recipe := @Recipe lib;
  Config_new := @Config_new lib;
  make_gauss_kernel := @make_gauss_kernel lib;
  image_recipe := @image_recipe lib;
  read_or_generate_image := @read_or_generate_image lib;
  run_photometry := fun im tbl name c =>
    if P c then @run_photometry lib im tbl name c else Raise AssertionError;
  result_table := @result_table lib;
  match_observation_to_source := @match_observation_to_source lib;
  offset := @offset lib
|}.

(** The settings the objective fixes, and those it takes from its arguments. *)
Definition tuned_config {K : Type} (cs fh it : Z) (c : Config K) : bool :=
  use_catalogue_positions c &&
  (photometry_iterations c =? 1)%Z &&
  (oversampling c =? 1)%Z &&
  (fitshape c =? fh * 2 + 1)%Z && Z.odd (fitshape c) &&
  (cutout_size c =? cs)%Z &&
  (epsfbuilder_iters c =? it)%Z.

End Hypertuning.

(** * Properties *)

(** ** Comparisons of floats *)

Module PyFacts.
Import Py.

Lemma Rgtb_true (a b : R) : Rgtb a b = true <-> (a > b)%R.
Proof. unfold Rgtb; destruct (Rgt_dec a b); split; intros; try easy. Qed.

Lemma Rltb_true (a b : R) : Rltb a b = true <-> (a < b)%R.
Proof. unfold Rltb; destruct (Rlt_dec a b); split; intros; try easy. Qed.

Lemma Rleb_true (a b : R) : Rleb a b = true <-> (a <= b)%R.
Proof. unfold Rleb; destruct (Rle_dec a b); split; intros; try easy. Qed.

Lemma Rleb_false (a b : R) : Rleb a b = false <-> (b < a)%R.
Proof.
  unfold Rleb; destruct (Rle_dec a b); split; intros; try easy; lra.
Qed.

Lemma Rgtb_false (a b : R) : Rgtb a b = false <-> (a <= b)%R.
Proof.
  unfold Rgtb; destruct (Rgt_dec a b); split; intros; try easy; lra.
Qed.

Lemma Rltb_false (a b : R) : Rltb a b = false <-> (b <= a)%R.
Proof.
  unfold Rltb; destruct (Rlt_dec a b); split; intros; try easy; lra.
Qed.

End PyFacts.

(** ** numpy masks *)

Module MaskFacts.
Import Py Photometry.

(** Indexing a table with a mask computed row by row is a filter. *)
Lemma getitem_mask_map (t : Table) (p : Row -> bool) :
  getitem_mask t (map p t) = List.filter p t.
Proof.
  unfold getitem_mask.
  induction t as [|r t IH]; simpl; [reflexivity|].
  destruct (p r); simpl; now rewrite IH.
Qed.

Lemma np_and_map {A : Type} (p q : A -> bool) (l : list A) :
  np_and (map p l) (map q l) = map (fun a => p a && q a) l.
Proof.
  unfold np_and. induction l as [|a l IH]; simpl; [reflexivity|].
  now rewrite IH.
Qed.

End MaskFacts.

(** ** photometry.py: the edge filter *)

Module EdgeFilter.
Import Py PyFacts Photometry MaskFacts.
Local Open Scope R_scope.

Lemma insideb_spec (b s : Z) (r : Row) : insideb b s r = true <-> inside b s r.
Proof.
  unfold insideb, inside.
  rewrite !andb_true_iff, !Rgtb_true, !Rltb_true. lra.
Qed.

Lemma cut_edges_filter (t : Table) (b s : Z) :
  cut_edges t b s = List.filter (insideb b s) t.
Proof.
  unfold cut_edges, col, np_gt, np_lt.
  rewrite !map_map, !np_and_map.
  apply getitem_mask_map.
Qed.

(** C1.  [cut_edges] keeps exactly the rows with
    [b/2 < x < s - b/2] and [b/2 < y < s - b/2] (strict on both sides), in
    their order and with their multiplicity, and drops every other row;
    [make_stars_guess] applies it with [cutout_size] and [image.shape[0]]. *)
Theorem cut_edges_exact (t : Table) (b s : Z) :
  cut_edges t b s = List.filter (insideb b s) t /\
  (forall r, insideb b s r = true <-> inside b s r) /\
  (forall r, In r (cut_edges t b s) <-> In r t /\ inside b s r) /\
  (forall image_shape r,
      In r (make_stars_guess_table t image_shape) <->
      In r t /\ inside cutout_size (fst image_shape) r).
Proof.
  split; [apply cut_edges_filter|].
  split; [intro r; apply insideb_spec|].
  split.
  - intro r. rewrite cut_edges_filter, filter_In, insideb_spec. reflexivity.
  - intros image_shape r. unfold make_stars_guess_table.
    rewrite cut_edges_filter, filter_In, insideb_spec. reflexivity.
Qed.

End EdgeFilter.

(** ** scopesim_helper.py: the coordinate conversions *)

Module Conversions.
Import PrimFloat ScopesimHelper ScopesimHelperExact.

(** *** In exact arithmetic *)



(** *** In binary64 *)






End Conversions.

(** ** photometry.py: the neighbour filter *)

Module NeighbourFilter.
Import Py PyFacts Photometry MaskFacts.
Local Open Scope R_scope.

Lemma euclid_nonneg (p q : R * R) : 0 <= euclid p q.
Proof. apply sqrt_pos. Qed.

Lemma euclid_self (q : R * R) : euclid q q = 0.
Proof.
  unfold euclid.
  replace ((fst q - fst q) * (fst q - fst q) + (snd q - snd q) * (snd q - snd q))
    with 0 by ring.
  apply sqrt_0.
Qed.

(** Points on a horizontal line are as far apart as their abscissae. *)
Lemma euclid_horizontal (a b c : R) : euclid (a, c) (b, c) = Rabs (a - b).
Proof.
  unfold euclid; simpl.
  replace ((a - b) * (a - b) + (c - c) * (c - c)) with (Rsqr (a - b))
    by (unfold Rsqr; ring).
  apply sqrt_Rsqr_abs.
Qed.

(** *** The sort behind [query] *)

Lemma insert_sorted_Forall (P : R -> Prop) (d : R) (l : list R) :
  P d -> Forall P l -> Forall P (insert_sorted d l).
Proof.
  intros Hd Hl. induction Hl as [|e l He Hl IH]; simpl.
  - constructor; [assumption | constructor].
  - destruct (Rleb d e); repeat constructor; assumption.
Qed.

Lemma sort_dists_Forall (P : R -> Prop) (l : list R) :
  Forall P l -> Forall P (sort_dists l).
Proof.
  induction 1 as [|e l He Hl IH]; simpl; [constructor|].
  now apply insert_sorted_Forall.
Qed.

Lemma insert_sorted_least (d : R) (l : list R) :
  Forall (fun e => d <= e) l -> insert_sorted d l = d :: l.
Proof.
  destruct 1 as [|e l He Hl]; simpl; [reflexivity|].
  apply Rleb_true in He. now rewrite He.
Qed.

(** A zero among non-negative numbers is sorted to the front. *)
Lemma sort_dists_zero (l1 l2 : list R) :
  Forall (fun e => 0 <= e) (l1 ++ l2) ->
  sort_dists (l1 ++ 0 :: l2) = 0 :: sort_dists (l1 ++ l2).
Proof.
  induction l1 as [|d l1 IH]; simpl; intros H.
  - apply insert_sorted_least. now apply sort_dists_Forall.
  - inversion H as [|? ? Hd Hrest]; subst.
    rewrite (IH Hrest). simpl.
    destruct (Rleb d 0) eqn:E; [|reflexivity].
    apply Rleb_true in E.
    assert (d = 0) by lra; subst d.
    rewrite insert_sorted_least; [reflexivity|].
    now apply sort_dists_Forall.
Qed.

Lemma hd_insert_sorted (d : R) (l : list R) :
  hd_dist (insert_sorted d l) = Dist_min (Fin d) (hd_dist l).
Proof.
  destruct l as [|e l]; simpl; [reflexivity|].
  destruct (Rleb d e); reflexivity.
Qed.

(** The sorted distances start with the least one. *)
Lemma hd_sort_dists (l : list R) : hd_dist (sort_dists l) = min_dist l.
Proof.
  induction l as [|d l IH]; simpl; [reflexivity|].
  now rewrite hd_insert_sorted, IH.
Qed.

(** Asked from a point of the tree, the second nearest point is the
    nearest of the other points. *)
Lemma query_second (pts1 pts2 : list (R * R)) (q : R * R) :
  query (pts1 ++ q :: pts2) q 2 = min_dist (map (euclid q) (pts1 ++ pts2)).
Proof.
  unfold query.
  rewrite map_app; simpl map. rewrite euclid_self.
  rewrite sort_dists_zero.
  - rewrite <- map_app, <- hd_sort_dists. simpl.
    destruct (sort_dists (map (euclid q) (pts1 ++ pts2))); reflexivity.
  - rewrite <- map_app. apply List.Forall_forall. intros e He.
    apply in_map_iff in He as (p & <- & _). apply euclid_nonneg.
Qed.

Lemma others_middle (l1 l2 : Table) (r : Row) :
  others (l1 ++ r :: l2) (length l1) = l1 ++ l2.
Proof.
  unfold others.
  rewrite firstn_app, Nat.sub_diag, firstn_all. simpl firstn. rewrite app_nil_r.
  rewrite skipn_app, skipn_all2 by lia.
  replace (S (length l1) - length l1)%nat with 1%nat by lia.
  reflexivity.
Qed.

Lemma query_nn_dist (l1 l2 : Table) (r : Row) :
  query (map pos (l1 ++ r :: l2)) (pos r) 2 = nn_dist (l1 ++ r :: l2) (length l1) r.
Proof.
  unfold nn_dist. rewrite others_middle.
  rewrite map_app; simpl map. rewrite query_second.
  rewrite <- map_app, map_map. reflexivity.
Qed.

(** *** The loop over the rows *)

Lemma loop_suffix (l2 l1 : Table) :
  map (fun row => set_nearest (query (map pos (l1 ++ l2)) (pos row) 2) row) l2 =
  map (fun ir => set_nearest (nn_dist (l1 ++ l2) (fst ir) (snd ir)) (snd ir))
      (combine (seq (length l1) (length l2)) l2).
Proof.
  revert l1. induction l2 as [|r l2 IH]; intros l1; simpl; [reflexivity|].
  f_equal.
  - now rewrite query_nn_dist.
  - specialize (IH (l1 ++ [r])).
    rewrite <- app_assoc in IH; simpl in IH.
    rewrite length_app in IH; simpl in IH.
    replace (length l1 + 1)%nat with (S (length l1)) in IH by lia.
    exact IH.
Qed.

Lemma loop_annotated (t : Table) :
  map (fun row => set_nearest (query (map pos t) (pos row) 2) row) t = annotated t.
Proof. exact (loop_suffix t []). Qed.

Lemma combine_columns (t : Table) :
  combine (map row_x t) (map row_y t) = map pos t.
Proof. induction t as [|r t IH]; simpl; [reflexivity|]. now rewrite IH. Qed.

Lemma Ok_inj {A : Type} (a b : A) : Ok a = Ok b -> a = b.
Proof. congruence. Qed.

Lemma cut_close_stars_empty (d : R) : cut_close_stars [] d = Raise TypeError.
Proof. reflexivity. Qed.

Lemma cut_close_stars_filter (t : Table) (d : R) :
  t <> [] ->
  cut_close_stars t d =
  Ok (List.filter (fun r => nearest_gt d (row_nearest r)) (annotated t)).
Proof.
  intros Hne. destruct t as [|r0 t0]; [congruence|].
  unfold cut_close_stars, setitem_nearest.
  change ((fun t =>
             Ok (getitem_mask
                   (map (fun row =>
                           set_nearest
                             (query (combine (col row_x t) (col row_y t))
                                    (row_x row, row_y row) 2) row) t)
                   (map (nearest_gt d)
                      (col row_nearest
                         (map (fun row =>
                                 set_nearest
                                   (query (combine (col row_x t) (col row_y t))
                                          (row_x row, row_y row) 2) row) t)))))
            (map (set_nearest (Fin 0)) (r0 :: t0))
          = Ok (List.filter (fun r => nearest_gt d (row_nearest r))
                  (annotated (r0 :: t0)))).
  cbv beta. generalize (r0 :: t0). clear. intros t.
  f_equal. unfold col.
  rewrite combine_columns.
  assert (Htree : map pos (map (set_nearest (Fin 0)) t) = map pos t)
    by (rewrite map_map; reflexivity).
  rewrite Htree.
  assert (Hloop :
    map (fun row => set_nearest (query (map pos t) (row_x row, row_y row) 2) row)
        (map (set_nearest (Fin 0)) t) = annotated t)
    by (rewrite map_map; apply loop_annotated).
  rewrite Hloop, map_map.
  apply getitem_mask_map.
Qed.

(** *** Rows of the annotated table *)

Lemma In_combine_seq {A : Type} (l : list A) (s i : nat) (a : A) :
  In (i, a) (combine (seq s (length l)) l) <->
  (s <= i)%nat /\ nth_error l (i - s) = Some a.
Proof.
  revert s. induction l as [|b l IH]; intros s; simpl.
  - split; [tauto|]. intros [_ H]. destruct (i - s)%nat; discriminate.
  - rewrite IH. split.
    + intros [H | [Hle H]].
      * inversion H; subst. rewrite Nat.sub_diag. split; [lia | reflexivity].
      * split; [lia|]. replace (i - s)%nat with (S (i - S s)) by lia. exact H.
    + intros [Hle H]. destruct (Nat.eq_dec s i) as [->|Hne].
      * rewrite Nat.sub_diag in H. simpl in H. left. congruence.
      * right. split; [lia|].
        replace (i - s)%nat with (S (i - S s)) in H by lia. exact H.
Qed.

Lemma In_annotated (t : Table) (r' : Row) :
  In r' (annotated t) <->
  exists i r, nth_error t i = Some r /\ r' = set_nearest (nn_dist t i r) r.
Proof.
  unfold annotated, indexed. rewrite in_map_iff. split.
  - intros ([i r] & <- & Hin). apply In_combine_seq in Hin as [_ Hin].
    rewrite Nat.sub_0_r in Hin. now exists i, r.
  - intros (i & r & Hi & ->). exists (i, r). split; [reflexivity|].
    apply In_combine_seq. rewrite Nat.sub_0_r. split; [lia | exact Hi].
Qed.

Lemma Dist_gtb_spec (n : Dist) (d : R) :
  Dist_gtb n d = true <-> match n with Fin a => d < a | Inf => True end.
Proof.
  destruct n as [a|]; simpl; [|tauto]. rewrite Rgtb_true. lra.
Qed.

Lemma In_farther (t : Table) (d : R) (r' : Row) :
  In r' (List.filter (fun r => nearest_gt d (row_nearest r)) (annotated t)) <->
  exists i r, nth_error t i = Some r /\ r' = set_nearest (nn_dist t i r) r /\
              Dist_gtb (nn_dist t i r) d = true.
Proof.
  rewrite filter_In, In_annotated. split.
  - intros ((i & r & Hi & ->) & H). now exists i, r.
  - intros (i & r & Hi & -> & H). split; [now exists i, r | exact H].
Qed.

(** C9, as the code has it.  On a table with at least one row
    [cut_close_stars] returns: it fills in every row's nearest-neighbour
    distance and keeps exactly the rows for which it is strictly greater
    than the cutoff (a lone row, at distance [inf], stays); a row whose
    nearest neighbour is at the cutoff distance or closer goes. *)
Theorem cut_close_stars_keeps_strictly_farther (t : Table) (d : R) :
  t <> [] ->
  exists kept,
    cut_close_stars t d = Ok kept /\
    kept = List.filter (fun r => nearest_gt d (row_nearest r)) (annotated t) /\
    (forall r', In r' kept <->
        exists i r, nth_error t i = Some r /\
                    r' = set_nearest (nn_dist t i r) r /\
                    match nn_dist t i r with Fin a => d < a | Inf => True end) /\
    (forall i r a, nth_error t i = Some r -> nn_dist t i r = Fin a -> a <= d ->
        ~ In (set_nearest (Fin a) r) kept).
Proof.
  intros Hne. eexists. split; [now apply cut_close_stars_filter|].
  split; [reflexivity|]. split.
  - intro r'. rewrite In_farther.
    split; intros (i & r & Hi & -> & H); exists i, r;
      (split; [exact Hi|]); (split; [reflexivity|]);
      now apply Dist_gtb_spec.
  - intros i r a Hi Hnn Hle Hin.
    apply In_farther in Hin as (j & r2 & _ & Heq & Hgt).
    assert (Hn : row_nearest (set_nearest (Fin a) r)
                 = row_nearest (set_nearest (nn_dist t j r2) r2)) by now rewrite Heq.
    simpl in Hn. injection Hn as Hn. rewrite <- Hn in Hgt.
    apply Dist_gtb_spec in Hgt. lra.
Qed.

Lemma annotated_five_apart :
  annotated [mkRow 1 0 0 None; mkRow 2 5 0 None] =
  [mkRow 1 0 0 (Some (Fin 5)); mkRow 2 5 0 (Some (Fin 5))].
Proof.
  unfold annotated, indexed, nn_dist, others, pos, set_nearest; simpl.
  rewrite !euclid_horizontal.
  rewrite Rabs_left, Rabs_pos_eq by lra.
  replace (- (0 - 5)) with 5 by ring. replace (5 - 0) with 5 by ring.
  reflexivity.
Qed.

(** Two candidates five pixels apart, and a cutoff of five: each has its
    nearest neighbour at the cutoff distance, none closer. *)
Lemma cut_close_stars_keeps_strictly_farther_witness :
  exists kept,
    cut_close_stars [mkRow 1 0 0 None; mkRow 2 5 0 None] 5 = Ok kept /\
    ~ In (set_nearest (Fin 5) (mkRow 1 0 0 None)) kept.
Proof.
  destruct (cut_close_stars_keeps_strictly_farther
              [mkRow 1 0 0 None; mkRow 2 5 0 None] 5 ltac:(discriminate))
    as (kept & Hk & _ & _ & Hout).
  exists kept. split; [exact Hk|].
  apply (Hout 0%nat (mkRow 1 0 0 None) 5 eq_refl); [|lra].
  unfold nn_dist, others, pos; simpl.
  rewrite euclid_horizontal, Rabs_left by lra.
  f_equal. ring.
Defined.

(** The filter as described would keep both candidates of that table; the
    code drops both. *)
Lemma cut_close_stars_drops_at_cutoff :
  cut_closer_than [mkRow 1 0 0 None; mkRow 2 5 0 None] 5 =
    [mkRow 1 0 0 (Some (Fin 5)); mkRow 2 5 0 (Some (Fin 5))] /\
  cut_close_stars [mkRow 1 0 0 None; mkRow 2 5 0 None] 5 = Ok [] /\
  ~ (forall t d, t <> [] -> cut_close_stars t d = Ok (cut_closer_than t d)).
Proof.
  assert (Hspec : cut_closer_than [mkRow 1 0 0 None; mkRow 2 5 0 None] 5 =
                  [mkRow 1 0 0 (Some (Fin 5)); mkRow 2 5 0 (Some (Fin 5))]).
  { unfold cut_closer_than. rewrite annotated_five_apart. simpl.
    assert (E : Rltb 5 5 = false) by (apply Rltb_false; lra).
    rewrite E. reflexivity. }
  assert (Hcode : cut_close_stars [mkRow 1 0 0 None; mkRow 2 5 0 None] 5 = Ok []).
  { rewrite cut_close_stars_filter by discriminate.
    rewrite annotated_five_apart. simpl.
    assert (E : Rgtb 5 5 = false) by (apply Rgtb_false; lra).
    rewrite E. reflexivity. }
  split; [exact Hspec|]. split; [exact Hcode|].
  intros H.
  specialize (H [mkRow 1 0 0 None; mkRow 2 5 0 None] 5 ltac:(discriminate)).
  rewrite Hspec, Hcode in H. discriminate.
Qed.

End NeighbourFilter.

(** ** photometry.py: the FWHM estimate *)

Module FWHM.
Import Py Photometry.
Local Open Scope R_scope.

Lemma FWHM_estimate_asserts_pass (fit : Fitter) (psf : PSF) :
  square_kernel psf -> symmetric_oversampling psf ->
  FWHM_estimate fit psf =
  match kernel_fit fit psf with
  | Ok g => Ok (x_fwhm g / IZR (fst (epsf_oversampling (psfmodel psf))))
  | Raise e => Raise e
  end.
Proof.
  unfold square_kernel, symmetric_oversampling, FWHM_estimate, kernel_fit.
  intros Hs Ho.
  apply Z.eqb_eq in Hs, Ho. rewrite Hs, Ho. reflexivity.
Qed.

Lemma FWHM_estimate_asserts_fail (fit : Fitter) (psf : PSF) :
  ~ (square_kernel psf /\ symmetric_oversampling psf) ->
  FWHM_estimate fit psf = Raise AssertionError.
Proof.
  unfold square_kernel, symmetric_oversampling, FWHM_estimate.
  intros H.
  destruct (Z.eqb_spec (fst (shape (data (psfmodel psf))))
                       (snd (shape (data (psfmodel psf))))) as [Hs|Hs];
    [|reflexivity].
  destruct (Z.eqb_spec (fst (epsf_oversampling (psfmodel psf)))
                       (snd (epsf_oversampling (psfmodel psf)))) as [Ho|Ho];
    [|reflexivity].
  tauto.
Qed.

(** C4.  With a square kernel and equal oversampling on both axes,
    [FWHM_estimate] returns the [x_fwhm] of the tied (symmetric) Gaussian
    that the fitter fits to the kernel, divided by the oversampling factor;
    with either precondition violated it raises [AssertionError] and returns
    nothing. *)
Theorem FWHM_estimate_spec (fit : Fitter) (psf : PSF) :
  (square_kernel psf -> symmetric_oversampling psf ->
   forall g, kernel_fit fit psf = Ok g ->
     FWHM_estimate fit psf
     = Ok (x_fwhm g / IZR (fst (epsf_oversampling (psfmodel psf))))) /\
  (forall c, y_stddev_tied (gauss_in c) = true /\
             x_stddev (gauss_in c) = y_stddev (gauss_in c) /\
             x_mean (gauss_in c) = y_mean (gauss_in c)) /\
  (~ (square_kernel psf /\ symmetric_oversampling psf) ->
   FWHM_estimate fit psf = Raise AssertionError /\
   forall v, FWHM_estimate fit psf <> Ok v).
Proof.
  split; [|split].
  - intros Hs Ho g Hg. rewrite FWHM_estimate_asserts_pass by assumption.
    now rewrite Hg.
  - intro c. repeat split.
  - intro H. rewrite (FWHM_estimate_asserts_fail fit psf H).
    split; [reflexivity | discriminate].
Qed.

(** A 2x2 kernel oversampled 4x4, with a fitter that settles on a width of
    3: the estimate is [3 * gaussian_sigma_to_fwhm / 4]. *)
Lemma FWHM_estimate_spec_witness :
  FWHM_estimate
    (fun g _ _ => Ok (mkGaussian2D (amplitude g) (x_mean g) (y_mean g) 3 3 true))
    (mkPSF (mkEPSFModel [[0; 1]; [1; 0]] (4, 4)%Z))
  = Ok (3 * gaussian_sigma_to_fwhm / 4).
Proof.
  apply (proj1 (FWHM_estimate_spec
                  (fun g _ _ => Ok (mkGaussian2D (amplitude g) (x_mean g) (y_mean g)
                                      3 3 true))
                  (mkPSF (mkEPSFModel [[0; 1]; [1; 0]] (4, 4)%Z)))
           eq_refl eq_refl
           (mkGaussian2D 1 1 1 3 3 true)).
  reflexivity.
Defined.

(** A 1x2 kernel fails the first assertion. *)
Example FWHM_estimate_rejects_oblong :
  FWHM_estimate (fun g _ _ => Ok g) (mkPSF (mkEPSFModel [[0; 1]] (4, 4)%Z))
  = Raise AssertionError.
Proof. reflexivity. Qed.

End FWHM.

(** ** hypertuning.py: the objective *)

Module ObjectiveFacts.
Import Py Hypertuning.
Local Open Scope R_scope.

(** *** The loss *)

Lemma fold_left_Rplus_acc (l : list R) (a : R) :
  fold_left Rplus l a = a + fold_left Rplus l 0.
Proof.
  revert a. induction l as [|b l IH]; intros a; simpl; [ring|].
  rewrite (IH (a + b)), (IH (0 + b)). ring.
Qed.

Lemma np_sum_cons (a : R) (l : list R) : np_sum (a :: l) = a + np_sum l.
Proof.
  unfold np_sum; simpl. rewrite fold_left_Rplus_acc.
  replace (0 + a) with a by ring. reflexivity.
Qed.

Lemma np_sum_pow2 (l : list R) : np_sum (np_pow2 l) = sum_of_squares l.
Proof.
  induction l as [|a l IH]; [reflexivity|].
  unfold np_pow2 in *; cbn [map]. rewrite np_sum_cons, IH.
  unfold sum_of_squares; cbn [fold_right]. ring.
Qed.

Lemma sum_of_squares_nonneg (l : list R) : 0 <= sum_of_squares l.
Proof.
  induction l as [|a l IH]; simpl; [lra|].
  pose proof (Rle_0_sqr a) as H. unfold Rsqr in H. lra.
Qed.

Lemma loss_root_sum_of_squares (l : list R) :
  np_sqrt (np_sum (np_pow2 l)) = root_sum_of_squares l.
Proof. unfold np_sqrt, root_sum_of_squares. now rewrite np_sum_pow2. Qed.

Section Objective.
Context `{lib : ThesisLib}.

(** *** The [try] block, statement by statement *)

Lemma objective_try_steps (cutout_size fitshape_half : Z) (sigma : R) (iters : Z) :
  objective_try cutout_size fitshape_half sigma iters =
  (c ← Config_new;
   k ← make_gauss_kernel sigma;
   it ← read_or_generate_image image_recipe image_name (image_folder c);
   res ← run_photometry (fst it) (snd it) image_name
           (objective_config c k cutout_size fitshape_half iters);
   matched ← match_observation_to_source (snd it) (result_table res);
   Ok (np_sqrt (np_sum (np_pow2 (map offset matched))))).
Proof.
  unfold objective_try.
  destruct Config_new as [c|e]; [|reflexivity]. simpl.
  destruct (make_gauss_kernel sigma) as [k|e]; [|reflexivity]. simpl.
  destruct (read_or_generate_image image_recipe image_name (image_folder c))
    as [[im tbl]|e]; reflexivity.
Qed.

Lemma objective_try_raises (cutout_size fitshape_half : Z) (sigma : R) (iters : Z)
  (e : exn) :
  objective_try cutout_size fitshape_half sigma iters = Raise e <->
  some_step_raises cutout_size fitshape_half sigma iters e.
Proof.
  rewrite objective_try_steps. unfold some_step_raises.
  destruct Config_new as [c|e0]; simpl.
  2:{ split; [intros [= ->]; now left | intros [H | (c & H & _)]; congruence]. }
  split.
  - intros H. right. exists c. split; [reflexivity|].
    destruct (make_gauss_kernel sigma) as [k|e1]; simpl in H;
      [|left; congruence].
    right. exists k. split; [reflexivity|].
    destruct (read_or_generate_image image_recipe image_name (image_folder c))
      as [[im tbl]|e2]; simpl in H; [|left; congruence].
    right. exists im, tbl. split; [reflexivity|].
    destruct (run_photometry im tbl image_name
                (objective_config c k cutout_size fitshape_half iters))
      as [res|e3]; simpl in H; [|left; congruence].
    right. exists res. split; [reflexivity|].
    destruct (match_observation_to_source tbl (result_table res))
      as [m|e4]; simpl in H; congruence.
  - intros [H | (c' & [= <-] & H)]; [discriminate|].
    destruct H as [H | (k & Hk & H)]; [now rewrite H|]. rewrite Hk; simpl.
    destruct H as [H | (im & tbl & Hi & H)]; [now rewrite H|]. rewrite Hi; simpl.
    destruct H as [H | (res & Hr & H)]; [now rewrite H|]. rewrite Hr; simpl.
    now rewrite H.
Qed.

Lemma objective_try_returns (cutout_size fitshape_half : Z) (sigma : R) (iters : Z)
  (matched : list MatchedRow) :
  all_steps_return cutout_size fitshape_half sigma iters matched ->
  objective_try cutout_size fitshape_half sigma iters
  = Ok (np_sqrt (np_sum (np_pow2 (map offset matched)))).
Proof.
  intros (c & k & im & tbl & res & Hc & Hk & Hi & Hr & Hm).
  rewrite objective_try_steps, Hc; simpl. rewrite Hk; simpl.
  rewrite Hi; simpl. rewrite Hr; simpl. now rewrite Hm.
Qed.

Lemma objective_try_returned (cutout_size fitshape_half : Z) (sigma : R) (iters : Z)
  (loss : R) :
  objective_try cutout_size fitshape_half sigma iters = Ok loss ->
  exists matched, all_steps_return cutout_size fitshape_half sigma iters matched.
Proof.
  rewrite objective_try_steps. unfold all_steps_return.
  destruct Config_new as [c|e0]; simpl; [|discriminate].
  destruct (make_gauss_kernel sigma) as [k|e1]; simpl; [|discriminate].
  destruct (read_or_generate_image image_recipe image_name (image_folder c))
    as [[im tbl]|e2] eqn:Hi; simpl; [|discriminate].
  destruct (run_photometry im tbl image_name
              (objective_config c k cutout_size fitshape_half iters))
    as [res|e3] eqn:Hr; simpl; [|discriminate].
  destruct (match_observation_to_source tbl (result_table res))
    as [m|e4] eqn:Hm; simpl; [|discriminate].
  intros _. exists m, c, k, im, tbl, res. now rewrite Hi.
Qed.

(** C5.  The objective never raises.  When a statement of its [try] block
    raises, whichever it is and whatever the exception, the objective
    returns the integer 100; when every statement returns, it returns the
    loss computed from the matched table; and one of the two is the case. *)
Theorem objective_penalty_on_failure
  (cutout_size fitshape_half : Z) (sigma : R) (iters : Z) :
  (exists v, objective cutout_size fitshape_half sigma iters = Ok v) /\
  (forall e, some_step_raises cutout_size fitshape_half sigma iters e ->
     objective cutout_size fitshape_half sigma iters = Ok (Int 100)) /\
  (forall matched,
     all_steps_return cutout_size fitshape_half sigma iters matched ->
     objective cutout_size fitshape_half sigma iters
     = Ok (Float (np_sqrt (np_sum (np_pow2 (map offset matched)))))) /\
  ((exists e, some_step_raises cutout_size fitshape_half sigma iters e) \/
   (exists matched, all_steps_return cutout_size fitshape_half sigma iters matched)).
Proof.
  repeat split.
  - unfold objective.
    destruct (objective_try cutout_size fitshape_half sigma iters); eauto.
  - intros e H. apply objective_try_raises in H. unfold objective. now rewrite H.
  - intros matched H. apply objective_try_returns in H. unfold objective.
    now rewrite H.
  - destruct (objective_try cutout_size fitshape_half sigma iters) as [l|e] eqn:E.
    + right. eapply objective_try_returned; eassumption.
    + left. exists e. now apply objective_try_raises.
Qed.

(** C6.  When the pipeline yields a matched table, the loss that the
    objective returns is the root of the sum of the squared offsets: it is
    [sqrt] of that sum, hence non-negative with the sum as its square. *)
Theorem objective_loss_root_sum_of_squares
  (cutout_size fitshape_half : Z) (sigma : R) (iters : Z)
  (matched : list MatchedRow) :
  all_steps_return cutout_size fitshape_half sigma iters matched ->
  exists loss,
    objective cutout_size fitshape_half sigma iters = Ok (Float loss) /\
    loss = root_sum_of_squares (map offset matched) /\
    0 <= loss /\
    loss * loss = sum_of_squares (map offset matched).
Proof.
  intros H. apply objective_try_returns in H.
  exists (root_sum_of_squares (map offset matched)).
  unfold objective. rewrite H, loss_root_sum_of_squares.
  repeat split.
  - apply sqrt_pos.
  - apply sqrt_sqrt, sum_of_squares_nonneg.
Qed.

End Objective.

(** A run in which the photometry raises: the objective answers 100. *)
Lemma objective_penalty_on_failure_witness :
  @objective lib_failing 20 7 (3 / 10) 10 = Ok (Int 100).
Proof.
  apply (proj1 (proj2 (@objective_penalty_on_failure lib_failing 20 7 (3 / 10) 10))
           (Exception "fit did not converge")).
  right. exists (mkConfig false 3 4 tt 25 50 3 "test_images").
  split; [reflexivity|].
  right. exists tt. split; [reflexivity|].
  right. exists tt, tt. split; [reflexivity|].
  left. reflexivity.
Defined.

(** A run with offsets 3 and 4: the loss is their root sum of squares. *)
Lemma objective_loss_root_sum_of_squares_witness :
  exists loss,
    @objective (lib_returning [3; 4]) 20 7 (3 / 10) 10 = Ok (Float loss) /\
    loss = root_sum_of_squares [3; 4] /\
    0 <= loss /\
    loss * loss = sum_of_squares [3; 4].
Proof.
  apply (@objective_loss_root_sum_of_squares (lib_returning [3; 4])
           20 7 (3 / 10) 10 [3; 4]).
  exists (mkConfig false 3 4 tt 25 50 3 "test_images"), tt, tt, tt, tt.
  repeat split.
Defined.

End ObjectiveFacts.

(** ** hypertuning.py: resuming from the saved optimizer *)

Module ResumeFacts.
Import Py Hypertuning.

Lemma n_observations_new dims nj rs be nip ipg :
  n_observations (Optimizer_new dims nj rs be nip ipg) = 0%nat.
Proof. reflexivity. Qed.

Lemma n_observations_tell (o : Optimizer) (x : list number) (y : number) :
  n_observations (tell o x y) = S (n_observations o).
Proof. unfold n_observations, tell; simpl. rewrite length_app; simpl. lia. Qed.

Section Resume.
Variable Blob : Type.
Variable dill_load : Blob -> result Optimizer.
Variable dill_dump : Optimizer -> Blob.

Lemma optimizer_absent (fs : gmap string Blob) :
  fs !! result_filename = None ->
  optimizer Blob dill_load fs =
  Ok (Optimizer_new
        [Integer 5 40; Integer 5 15; Real (20 / 100) (4 / 10); Integer 5 30]
        12 1 "RF" 15 "random").
Proof.
  intros H. unfold optimizer, os_path_exists.
  rewrite bool_decide_eq_false_2; [reflexivity|].
  rewrite H. now apply is_Some_None.
Qed.

Lemma optimizer_present (fs : gmap string Blob) (f : Blob) :
  fs !! result_filename = Some f ->
  optimizer Blob dill_load fs = dill_load f.
Proof.
  intros H. unfold optimizer, os_path_exists, open_rb.
  rewrite bool_decide_eq_true_2 by (rewrite H; eauto).
  now rewrite H.
Qed.

(** What [dill] writes, [dill] reads back. *)
Hypothesis dill_roundtrip : forall o, dill_load (dill_dump o) = Ok o.

Lemma optimizer_after_save (fs : gmap string Blob) (o : Optimizer) :
  optimizer Blob dill_load (save Blob dill_dump fs o) = Ok o.
Proof.
  rewrite (optimizer_present _ (dill_dump o)); [apply dill_roundtrip|].
  unfold save. apply lookup_insert_eq.
Qed.

(** C7.  Which optimizer the driver starts with depends on the working
    directory only through the state file: when it is absent, a fresh
    optimizer with no observations is built; when it is present, the
    optimizer is what [dill] loads from it.  After a run has saved its
    optimizer, the next start gets that optimizer back, with every
    observation it had. *)
Theorem optimizer_resume_or_fresh :
  (forall fs, fs !! result_filename = None ->
     exists o, optimizer Blob dill_load fs = Ok o /\ n_observations o = 0%nat /\
       o = Optimizer_new
             [Integer 5 40; Integer 5 15; Real (20 / 100) (4 / 10); Integer 5 30]
             12 1 "RF" 15 "random") /\
  (forall fs f, fs !! result_filename = Some f ->
     optimizer Blob dill_load fs = dill_load f) /\
  (forall fs fs', fs !! result_filename = fs' !! result_filename ->
     optimizer Blob dill_load fs = optimizer Blob dill_load fs') /\
  (forall fs o,
     os_path_exists Blob (save Blob dill_dump fs o) result_filename = true /\
     optimizer Blob dill_load (save Blob dill_dump fs o) = Ok o) /\
  (forall fs o o',
     optimizer Blob dill_load (save Blob dill_dump fs o) = Ok o' ->
     n_observations o' = n_observations o).
Proof.
  split; [|split; [|split; [|split]]].
  - intros fs H. eexists. split; [now apply optimizer_absent|]. split; reflexivity.
  - intros fs f H. now apply optimizer_present.
  - intros fs fs' H.
    destruct (fs !! result_filename) as [f|] eqn:E.
    + rewrite (optimizer_present fs f E). symmetry. now apply optimizer_present.
    + rewrite (optimizer_absent fs E). symmetry. now apply optimizer_absent.
  - intros fs o. split; [|apply optimizer_after_save].
    unfold os_path_exists, save. apply bool_decide_eq_true_2.
    rewrite lookup_insert_eq. eauto.
  - intros fs o o' H. rewrite optimizer_after_save in H. congruence.
Qed.

End Resume.

(** A directory without the state file, a first run that is told one
    observation and saves, then a second start: it has that observation. *)
Lemma optimizer_resume_or_fresh_witness :
  exists o1,
    optimizer Optimizer Ok (∅ : gmap string Optimizer) = Ok o1 /\
    n_observations o1 = 0%nat /\
    optimizer Optimizer Ok
      (save Optimizer (fun o => o) ∅ (tell o1 [Int 20; Int 7; Float 3; Int 10] (Int 100)))
    = Ok (tell o1 [Int 20; Int 7; Float 3; Int 10] (Int 100)) /\
    n_observations (tell o1 [Int 20; Int 7; Float 3; Int 10] (Int 100)) = 1%nat.
Proof.
  pose proof (optimizer_resume_or_fresh Optimizer Ok (fun o => o)
                (fun o => eq_refl)) as (Hfresh & _ & _ & Hsave & _).
  destruct (Hfresh ∅ (lookup_empty _)) as (o1 & Ho1 & Hn & _).
  exists o1. split; [exact Ho1|]. split; [exact Hn|].
  split; [apply Hsave|].
  rewrite n_observations_tell, Hn. reflexivity.
Defined.

End ResumeFacts.

(** ** hypertuning.py: one pass over the outstanding jobs *)

Module CollectFacts.
Import Py Hypertuning.

Lemma list_remove_head (x : Job) (l : list Job) : list_remove x (x :: l) = Some l.
Proof. simpl. now rewrite decide_True. Qed.

Lemma list_remove_In (x : Job) (l : list Job) :
  In x l -> exists l', list_remove x l = Some l' /\ S (length l') = length l.
Proof.
  induction l as [|y l IH]; simpl; [tauto|]. intros H.
  destruct (decide (x = y)) as [->|Hne]; [eauto|].
  destruct H as [->|H]; [congruence|].
  destruct (IH H) as (l' & -> & Hlen). simpl. eexists; split; [reflexivity|].
  simpl. lia.
Qed.

(** The pass never asks for more steps than the list is long. *)
Lemma collect_from_fuel (fuel : nat) (p : Pool) :
  forall i jobs o, (length jobs <= i + fuel)%nat ->
    collect_from (S fuel) p i jobs o = collect_from fuel p i jobs o.
Proof.
  induction fuel as [|fuel IH]; intros i jobs o Hlen.
  - simpl. destruct (nth_error jobs i) as [job|] eqn:E; [|reflexivity].
    assert (i < length jobs)%nat by (apply nth_error_Some; congruence). lia.
  - change (collect_from (S (S fuel)) p i jobs o) with
      (match nth_error jobs i with
       | None => Ok (jobs, o)
       | Some job =>
         match p !! handle (result_ job) with
         | Some v =>
           match list_remove job jobs with
           | Some jobs' => collect_from (S fuel) p (S i) jobs' (tell o (args job) v)
           | None => Raise ValueError
           end
         | None => collect_from (S fuel) p (S i) jobs o
         end
       end).
    change (collect_from (S fuel) p i jobs o) with
      (match nth_error jobs i with
       | None => Ok (jobs, o)
       | Some job =>
         match p !! handle (result_ job) with
         | Some v =>
           match list_remove job jobs with
           | Some jobs' => collect_from fuel p (S i) jobs' (tell o (args job) v)
           | None => Raise ValueError
           end
         | None => collect_from fuel p (S i) jobs o
         end
       end).
    destruct (nth_error jobs i) as [job|] eqn:E; [|reflexivity].
    destruct (p !! handle (result_ job)) as [v|]; [|apply IH; lia].
    destruct (list_remove_In job jobs (nth_error_In _ _ E)) as (l' & -> & Hl').
    apply IH. lia.
Qed.

(** A pass always comes to an end and hands back a list and an optimizer. *)
Lemma collect_from_returns (fuel : nat) (p : Pool) :
  forall i jobs o, exists jobs' o', collect_from fuel p i jobs o = Ok (jobs', o').
Proof.
  induction fuel as [|fuel IH]; intros i jobs o; simpl; [eauto|].
  destruct (nth_error jobs i) as [job|] eqn:E; [|eauto].
  destruct (p !! handle (result_ job)) as [v|]; [|apply IH].
  destruct (list_remove_In job jobs (nth_error_In _ _ E)) as (l' & -> & _).
  apply IH.
Qed.

Lemma collect_fuel_enough (p : Pool) (jobs : list Job) (o : Optimizer) (extra : nat) :
  collect_from (length jobs + extra) p 0 jobs o = collect p jobs o.
Proof.
  unfold collect. induction extra as [|extra IH].
  - now rewrite Nat.add_0_r.
  - rewrite Nat.add_succ_r, collect_from_fuel by lia. exact IH.
Qed.

Lemma list_remove_other (x y : Job) (l l' : list Job) :
  list_remove x l = Some l' -> In y l -> y = x \/ In y l'.
Proof.
  revert l'. induction l as [|z l IH]; intros l'; simpl; [discriminate|].
  destruct (decide (x = z)) as [->|Hne].
  - intros [= <-] [->|H]; auto.
  - destruct (list_remove x l) as [l''|]; simpl; [|discriminate].
    intros [= <-] [->|H]; [right; now left|].
    destruct (IH l'' eq_refl H) as [->|H']; [now left | right; now right].
Qed.

Lemma told_tell_mono (o : Optimizer) (x : list number) (y : number) (job : Job) :
  told o job -> told (tell o x y) job.
Proof. unfold told, tell; simpl. intros H. apply in_or_app. now left. Qed.

Lemma collect_from_told_mono (fuel : nat) (p : Pool) (job : Job) :
  forall i jobs o jobs' o',
    collect_from fuel p i jobs o = Ok (jobs', o') -> told o job -> told o' job.
Proof.
  induction fuel as [|fuel IH]; intros i jobs o jobs' o'; simpl.
  - now intros [= _ <-].
  - destruct (nth_error jobs i) as [j|]; [|now intros [= _ <-]].
    destruct (p !! handle (result_ j)) as [v|]; [|apply IH].
    destruct (list_remove j jobs) as [l|]; [|discriminate].
    intros H Ht. eapply IH; [exact H|]. now apply told_tell_mono.
Qed.

(** What a pass does guarantee: a job that it takes from the list had
    finished and has been reported. *)
Lemma collect_from_removed_told (fuel : nat) (p : Pool) (job : Job) :
  forall i jobs o jobs' o',
    collect_from fuel p i jobs o = Ok (jobs', o') ->
    In job jobs -> ~ In job jobs' ->
    ready p (result_ job) = true /\ told o' job.
Proof.
  induction fuel as [|fuel IH]; intros i jobs o jobs' o'; simpl.
  - intros [= <- _] Hin Hout. contradiction.
  - destruct (nth_error jobs i) as [j|]; [|intros [= <- _] Hin Hout; contradiction].
    destruct (p !! handle (result_ j)) as [v|] eqn:Ev; [|apply IH].
    destruct (list_remove j jobs) as [l|] eqn:El; [|discriminate].
    intros H Hin Hout.
    destruct (list_remove_other j job jobs l El Hin) as [->|Hl].
    + split.
      * unfold ready. apply bool_decide_eq_true_2. rewrite Ev. eauto.
      * eapply collect_from_told_mono; [exact H|].
        unfold told, tell; simpl. apply in_or_app. right. now left.
    + eapply IH; eassumption.
Qed.

Lemma two_finished_a : two_finished !! handle (result_ job_a) = Some (Float 2).
Proof. unfold two_finished, job_a; cbn [handle result_]. apply lookup_insert_eq. Qed.

Lemma two_finished_b : two_finished !! handle (result_ job_b) = Some (Float 3).
Proof.
  unfold two_finished, job_b; cbn [handle result_].
  rewrite lookup_insert_ne by discriminate. apply lookup_insert_eq.
Qed.

Lemma two_finished_c : two_finished !! handle (result_ job_c) = None.
Proof.
  unfold two_finished, job_c; cbn [handle result_].
  rewrite !lookup_insert_ne by discriminate. apply lookup_empty.
Qed.

Lemma collect_three (o : Optimizer) :
  collect two_finished [job_a; job_b; job_c] o
  = Ok ([job_b; job_c], tell o (args job_a) (Float 2)).
Proof.
  unfold collect. cbn [length collect_from nth_error].
  rewrite two_finished_a, list_remove_head.
  cbn [nth_error]. rewrite two_finished_c.
  reflexivity.
Qed.

(** C8 on the code.  Three jobs are outstanding; the first two have
    finished.  The pass reports the first and removes it; the second has
    then moved into the slot the iterator has already left, so the iterator
    goes on with the third.  The pass ends with the second job still in the
    list and not reported, although it was ready from the start. *)
Theorem collect_skips_ready_job :
  ready two_finished (result_ job_a) = true /\
  ready two_finished (result_ job_b) = true /\
  ready two_finished (result_ job_c) = false /\
  collect two_finished [job_a; job_b; job_c] fresh_optimizer
  = Ok ([job_b; job_c], tell fresh_optimizer (args job_a) (Float 2)) /\
  In job_b [job_b; job_c] /\
  ~ told (tell fresh_optimizer (args job_a) (Float 2)) job_b.
Proof.
  split; [|split; [|split; [|split; [|split]]]].
  - unfold ready. apply bool_decide_eq_true_2. rewrite two_finished_a. eauto.
  - unfold ready. apply bool_decide_eq_true_2. rewrite two_finished_b. eauto.
  - unfold ready. apply bool_decide_eq_false_2. rewrite two_finished_c.
    apply is_Some_None.
  - apply collect_three.
  - now left.
  - unfold told; simpl. intros [H | []]. discriminate H.
Qed.

(** Hence a pass does not, in general, report and remove every job that was
    ready when it began. *)
Lemma collect_not_exhaustive :
  ~ (forall p jobs o jobs' o',
       collect p jobs o = Ok (jobs', o') ->
       forall job, In job jobs -> ready p (result_ job) = true ->
                   told o' job /\ ~ In job jobs').
Proof.
  intros H.
  destruct (H two_finished [job_a; job_b; job_c] fresh_optimizer _ _
              (collect_three fresh_optimizer) job_b) as [_ Hin].
  - right; now left.
  - unfold ready. apply bool_decide_eq_true_2. rewrite two_finished_b. eauto.
  - apply Hin. now left.
Qed.

End CollectFacts.

(** * Further properties *)

(** ** photometry.py: more on the edge filter *)

Module EdgeFilterProps.
Import Py PyFacts Photometry MaskFacts.
Local Open Scope R_scope.

Lemma filter_none {A : Type} (f : A -> bool) (l : list A) :
  (forall a, In a l -> f a = false) -> List.filter f l = [].
Proof.
  induction l as [|a l IH]; simpl; intros H; [reflexivity|].
  rewrite (H a) by now left. apply IH. intros b Hb. apply H. now right.
Qed.

Lemma filter_all {A : Type} (f : A -> bool) (l : list A) :
  (forall a, In a l -> f a = true) -> List.filter f l = l.
Proof.
  induction l as [|a l IH]; simpl; intros H; [reflexivity|].
  rewrite (H a) by now left. f_equal. apply IH. intros b Hb. apply H. now right.
Qed.

Lemma filter_filter_implied {A : Type} (f g : A -> bool) (l : list A) :
  (forall a, f a = true -> g a = true) ->
  List.filter f (List.filter g l) = List.filter f l.
Proof.
  intros H. induction l as [|a l IH]; simpl; [reflexivity|].
  destruct (g a) eqn:Eg; simpl.
  - destruct (f a); now rewrite IH.
  - destruct (f a) eqn:Ef; [|exact IH].
    apply H in Ef. congruence.
Qed.

Lemma inside_box_lt_size (b s : Z) (r : Row) : inside b s r -> (b < s)%Z.
Proof.
  unfold inside. intros [[H1 H2] _].
  apply lt_IZR. lra.
Qed.

Lemma inside_smaller_box (b b' s : Z) (r : Row) :
  (b <= b')%Z -> inside b' s r -> inside b s r.
Proof.
  unfold inside. intros Hb H. apply IZR_le in Hb. lra.
Qed.

(** A box as large as the image leaves no candidate: [cut_edges] returns the
    empty table, and so does the table stage of [make_stars_guess] on an
    image of at most [cutout_size] rows. *)
Theorem cut_edges_box_covers_image (t : Table) (b s : Z) :
  (s <= b)%Z -> cut_edges t b s = [].
Proof.
  intros Hsb. rewrite EdgeFilter.cut_edges_filter.
  apply filter_none. intros r _.
  destruct (insideb b s r) eqn:E; [|reflexivity].
  apply EdgeFilter.insideb_spec, inside_box_lt_size in E. lia.
Qed.

Lemma cut_edges_box_covers_image_witness :
  cut_edges [mkRow 1 30 30 None; mkRow 2 10 40 None] 50 50 = [].
Proof. apply cut_edges_box_covers_image. lia. Defined.

(** Growing the box only removes rows: cutting with a box [b] first and a
    larger box [b'] afterwards gives what cutting with [b'] alone gives, and
    every row that survives [b'] survives [b]. *)
Theorem cut_edges_nested (t : Table) (b b' s : Z) :
  (b <= b')%Z ->
  cut_edges (cut_edges t b s) b' s = cut_edges t b' s /\
  (forall r, In r (cut_edges t b' s) -> In r (cut_edges t b s)).
Proof.
  intros Hb. rewrite !EdgeFilter.cut_edges_filter. split.
  - apply filter_filter_implied. intros r Hr.
    apply EdgeFilter.insideb_spec. apply EdgeFilter.insideb_spec in Hr.
    now apply (inside_smaller_box b b').
  - intros r. rewrite !filter_In, !EdgeFilter.insideb_spec.
    intros [Hin Hr]. split; [exact Hin|]. now apply (inside_smaller_box b b').
Qed.

Lemma cut_edges_nested_witness :
  cut_edges (cut_edges [mkRow 1 30 30 None; mkRow 2 8 40 None] 10 100) 50 100
  = cut_edges [mkRow 1 30 30 None; mkRow 2 8 40 None] 50 100.
Proof.
  apply (proj1 (cut_edges_nested [mkRow 1 30 30 None; mkRow 2 8 40 None] 10 50 100
                  ltac:(lia))).
Defined.

End EdgeFilterProps.

(** ** photometry.py: more on the neighbour filter *)

Module NeighbourFilterProps.
Import Py PyFacts Photometry MaskFacts NeighbourFilter EdgeFilterProps.
Local Open Scope R_scope.

(** *** The least of a list of distances *)

Lemma min_dist_le (l : list R) (e : R) :
  In e l -> exists a, min_dist l = Fin a /\ a <= e.
Proof.
  induction l as [|d l IH]; simpl; [tauto|].
  intros [->|Hin].
  - destruct (min_dist l) as [m|]; simpl.
    + destruct (Rleb e m) eqn:E.
      * exists e. split; [reflexivity | lra].
      * apply Rleb_false in E. exists m. split; [reflexivity | lra].
    + exists e. split; [reflexivity | lra].
  - destruct (IH Hin) as (a & Ha & Hle). rewrite Ha; simpl.
    destruct (Rleb d a) eqn:E.
    + apply Rleb_true in E. exists d. split; [reflexivity | lra].
    + exists a. split; [reflexivity | exact Hle].
Qed.

Lemma min_dist_lower_bound (l : list R) (c : R) :
  Forall (fun e => c < e) l ->
  match min_dist l with Fin a => c < a | Inf => True end.
Proof.
  induction 1 as [|d l Hd Hl IH]; simpl; [exact I|].
  destruct (min_dist l) as [m|]; simpl; [|exact Hd].
  destruct (Rleb d m); assumption.
Qed.

Lemma nn_dist_lower_bound (t : Table) (i : nat) (r : Row) (c : R) :
  (forall o, In o (others t i) -> c < euclid (pos r) (pos o)) ->
  match nn_dist t i r with Fin a => c < a | Inf => True end.
Proof.
  intros H. unfold nn_dist. apply min_dist_lower_bound.
  apply List.Forall_forall. intros e He.
  apply in_map_iff in He as (o & <- & Ho). now apply H.
Qed.

Lemma In_others (t : Table) (i j : nat) (r : Row) :
  nth_error t j = Some r -> j <> i -> In r (others t i).
Proof.
  intros Hj Hne. unfold others. apply in_or_app.
  destruct (Nat.lt_ge_cases j i) as [Hlt|Hge].
  - left. apply (nth_error_In _ j). rewrite nth_error_firstn.
    destruct (Nat.ltb_spec j i); [exact Hj | lia].
  - right. apply (nth_error_In _ (j - S i)). rewrite nth_error_skipn.
    replace (S i + (j - S i))%nat with j by lia. exact Hj.
Qed.

Lemma nn_dist_le_other (t : Table) (i j : nat) (r o : Row) :
  nth_error t j = Some o -> j <> i ->
  exists a, nn_dist t i r = Fin a /\ a <= euclid (pos r) (pos o).
Proof.
  intros Hj Hne. unfold nn_dist. apply min_dist_le.
  apply in_map_iff. exists o. split; [reflexivity|]. now apply (In_others t i j).
Qed.

(** *** Edge cases *)

(** A table without rows makes [cut_close_stars] raise [TypeError] at its
    first statement; a candidate that is alone in its table is kept for
    every cutoff, with the distance [inf] in its new column. *)
Theorem cut_close_stars_lone_candidate (r : Row) (d : R) :
  cut_close_stars [] d = Raise TypeError /\
  cut_close_stars [r] d = Ok [set_nearest Inf r].
Proof.
  split; [reflexivity|].
  rewrite cut_close_stars_filter by discriminate. reflexivity.
Qed.

(** With a negative cutoff nothing is removed: the result is the whole
    table, each row with its nearest-neighbour distance filled in. *)
Theorem cut_close_stars_negative_cutoff (t : Table) (d : R) :
  d < 0 -> t <> [] -> cut_close_stars t d = Ok (annotated t).
Proof.
  intros Hd Hne. rewrite cut_close_stars_filter by exact Hne. f_equal.
  apply filter_all. intros r' Hr'.
  apply In_annotated in Hr' as (i & r & Hi & ->). simpl.
  apply Dist_gtb_spec.
  apply nn_dist_lower_bound. intros o _.
  pose proof (euclid_nonneg (pos r) (pos o)). lra.
Qed.

Lemma cut_close_stars_negative_cutoff_witness :
  cut_close_stars [mkRow 1 0 0 None; mkRow 2 0 0 None] (-1)
  = Ok (annotated [mkRow 1 0 0 None; mkRow 2 0 0 None]).
Proof. apply cut_close_stars_negative_cutoff; [lra | discriminate]. Defined.

(** Two candidates at the same position put each other at distance zero:
    with a cutoff that is not negative, [cut_close_stars] returns a table
    in which no row sits at that position. *)
Theorem cut_close_stars_removes_duplicates
  (t : Table) (d : R) (i j : nat) (r1 r2 : Row) :
  0 <= d -> i <> j ->
  nth_error t i = Some r1 -> nth_error t j = Some r2 -> pos r1 = pos r2 ->
  exists kept,
    cut_close_stars t d = Ok kept /\
    forall r', In r' kept -> pos r' <> pos r1.
Proof.
  intros Hd Hij Hi Hj Hpos.
  assert (Hne : t <> []) by (intros ->; destruct i; discriminate).
  eexists. split; [now apply cut_close_stars_filter|].
  intros r' Hr' Heq.
  apply In_farther in Hr' as (k & rk & Hk & -> & Hgt).
  change (pos (set_nearest (nn_dist t k rk) rk)) with (pos rk) in Heq.
  apply Dist_gtb_spec in Hgt.
  assert (Hother : exists m o, nth_error t m = Some o /\ m <> k /\ pos o = pos rk).
  { destruct (Nat.eq_dec k i) as [->|Hki].
    - exists j, r2. repeat split; [exact Hj | auto | congruence].
    - exists i, r1. repeat split; [exact Hi | auto | congruence]. }
  destruct Hother as (m & o & Hm & Hmk & Ho).
  destruct (nn_dist_le_other t k m rk o Hm Hmk) as (a & Ha & Hle).
  rewrite Ha in Hgt. rewrite Ho, euclid_self in Hle. lra.
Qed.

Lemma cut_close_stars_removes_duplicates_witness :
  exists kept,
    cut_close_stars [mkRow 1 3 4 None; mkRow 2 3 4 None] 0 = Ok kept /\
    ~ In (mkRow 1 3 4 (Some (Fin 0))) kept.
Proof.
  destruct (cut_close_stars_removes_duplicates
              [mkRow 1 3 4 None; mkRow 2 3 4 None] 0 0 1
              (mkRow 1 3 4 None) (mkRow 2 3 4 None)
              ltac:(lra) ltac:(discriminate) eq_refl eq_refl eq_refl)
    as (kept & Hk & Hout).
  exists kept. split; [exact Hk|].
  intros H. now apply (Hout _ H).
Defined.

(** Raising the cutoff only removes rows: whatever survives the cutoff [d']
    survives every smaller cutoff [d]. *)
Theorem cut_close_stars_cutoff_monotone (t : Table) (d d' : R) :
  d <= d' -> t <> [] ->
  exists kept kept',
    cut_close_stars t d = Ok kept /\
    cut_close_stars t d' = Ok kept' /\
    forall r', In r' kept' -> In r' kept.
Proof.
  intros Hd Hne. eexists _, _.
  split; [now apply cut_close_stars_filter|].
  split; [now apply cut_close_stars_filter|].
  intros r'. rewrite !In_farther.
  intros (i & r & Hi & -> & Hgt). exists i, r.
  split; [exact Hi|]. split; [reflexivity|].
  apply Dist_gtb_spec. apply Dist_gtb_spec in Hgt.
  destruct (nn_dist t i r); [lra | exact I].
Qed.

(** Two candidates five pixels apart survive the cutoff 4, hence the
    cutoff 3. *)
Lemma cut_close_stars_cutoff_monotone_witness :
  exists kept,
    cut_close_stars [mkRow 1 0 0 None; mkRow 2 5 0 None] 3 = Ok kept /\
    In (mkRow 1 0 0 (Some (Fin 5))) kept.
Proof.
  destruct (cut_close_stars_cutoff_monotone
              [mkRow 1 0 0 None; mkRow 2 5 0 None] 3 4
              ltac:(lra) ltac:(discriminate))
    as (kept & kept' & Hk & Hk' & Hsub).
  exists kept. split; [exact Hk|]. apply Hsub.
  rewrite cut_close_stars_filter in Hk' by discriminate.
  apply Ok_inj in Hk'. rewrite <- Hk', annotated_five_apart. simpl.
  assert (E : Rgtb 5 4 = true) by (apply Rgtb_true; lra).
  rewrite E. now left.
Defined.

End NeighbourFilterProps.

(** ** photometry.py: filtering neighbours twice *)

Module NeighbourFilterTwice.
Import Py PyFacts Photometry MaskFacts NeighbourFilter EdgeFilterProps
       NeighbourFilterProps.
Local Open Scope R_scope.

Lemma others_In_inv (t : Table) (i : nat) (o : Row) :
  In o (others t i) -> exists j, j <> i /\ nth_error t j = Some o.
Proof.
  unfold others. intros H. apply in_app_or in H as [H|H].
  - apply In_nth_error in H as (n & Hn). rewrite nth_error_firstn in Hn.
    destruct (Nat.ltb_spec n i); [|discriminate].
    exists n. split; [lia | exact Hn].
  - apply In_nth_error in H as (n & Hn). rewrite nth_error_skipn in Hn.
    exists (S i + n)%nat. split; [lia | exact Hn].
Qed.

(** Neighbours in a filtered table are neighbours in the table. *)
Lemma others_filter (f : Row -> bool) (l : Table) :
  forall k q o,
    nth_error (List.filter f l) k = Some q -> In o (others (List.filter f l) k) ->
    exists i, nth_error l i = Some q /\ f q = true /\ In o (others l i).
Proof.
  induction l as [|a l IH]; intros k q o Hk Ho; simpl in *.
  - destruct k; discriminate.
  - destruct (f a) eqn:Ea.
    + destruct k as [|k]; simpl in Hk.
      * injection Hk as <-. exists 0%nat. split; [reflexivity|]. split; [exact Ea|].
        change (In o (List.filter f l)) in Ho. apply filter_In in Ho as [Ho _].
        exact Ho.
      * change (In o (a :: others (List.filter f l) k)) in Ho.
        destruct Ho as [<-|Ho].
        -- pose proof (nth_error_In _ _ Hk) as Hq.
           apply filter_In in Hq as [Hq Hfq].
           apply In_nth_error in Hq as (i & Hi).
           exists (S i). split; [exact Hi|]. split; [exact Hfq|].
           change (In a (a :: others l i)). now left.
        -- destruct (IH k q o Hk Ho) as (i & Hi & Hfq & Hin).
           exists (S i). split; [exact Hi|]. split; [exact Hfq|].
           change (In o (a :: others l i)). now right.
    + destruct (IH k q o Hk Ho) as (i & Hi & Hfq & Hin).
      exists (S i). split; [exact Hi|]. split; [exact Hfq|].
      change (In o (a :: others l i)). now right.
Qed.

Lemma nth_error_combine_seq {A : Type} (l : list A) :
  forall s i, nth_error (combine (seq s (length l)) l) i
              = option_map (fun a => ((s + i)%nat, a)) (nth_error l i).
Proof.
  induction l as [|a l IH]; intros s i; simpl.
  - destruct i; reflexivity.
  - destruct i as [|i]; simpl.
    + now rewrite Nat.add_0_r.
    + rewrite IH. now rewrite Nat.add_succ_r.
Qed.

Lemma nth_error_annotated (t : Table) (i : nat) :
  nth_error (annotated t) i
  = option_map (fun r => set_nearest (nn_dist t i r) r) (nth_error t i).
Proof.
  unfold annotated, indexed.
  rewrite nth_error_map, nth_error_combine_seq.
  destruct (nth_error t i); reflexivity.
Qed.

Lemma map_snd_combine_seq {A : Type} (l : list A) :
  forall s, map snd (combine (seq s (length l)) l) = l.
Proof.
  induction l as [|a l IH]; intros s; simpl; [reflexivity|]. now rewrite IH.
Qed.

Lemma map_pos_annotated (t : Table) : map pos (annotated t) = map pos t.
Proof.
  unfold annotated, indexed. rewrite map_map.
  transitivity (map pos (map snd (combine (seq 0 (length t)) t))).
  - rewrite map_map. reflexivity.
  - now rewrite map_snd_combine_seq.
Qed.

(** One pass is enough.  When a first pass has returned a table with rows
    left in it, a second pass with the same cutoff removes none of them: it
    returns the same rows, at the same positions, with their distances
    taken anew among the survivors. *)
Theorem cut_close_stars_twice (t kept : Table) (d : R) :
  cut_close_stars t d = Ok kept -> kept <> [] ->
  cut_close_stars kept d = Ok (annotated kept) /\
  map pos (annotated kept) = map pos kept.
Proof.
  intros Hfirst Hne.
  assert (Ht : t <> []) by (intros ->; discriminate Hfirst).
  rewrite (cut_close_stars_filter t d Ht) in Hfirst.
  apply Ok_inj in Hfirst. rename Hfirst into Hkept.
  split; [|apply map_pos_annotated].
  rewrite (cut_close_stars_filter kept d Hne). f_equal.
  apply filter_all. intros q' Hq'.
  apply In_annotated in Hq' as (k & q & Hk & ->). simpl.
  apply Dist_gtb_spec, nn_dist_lower_bound. intros o Ho.
  rewrite <- Hkept in Hk, Ho.
  destruct (others_filter _ _ k q o Hk Ho) as (i & Hi & Hgt & Hin).
  rewrite nth_error_annotated in Hi.
  destruct (nth_error t i) as [r|] eqn:Hr; [|discriminate].
  injection Hi as <-. simpl in Hgt.
  apply others_In_inv in Hin as (j & Hji & Hj).
  rewrite nth_error_annotated in Hj.
  destruct (nth_error t j) as [ro|] eqn:Hro; [|discriminate].
  injection Hj as <-.
  change (pos (set_nearest (nn_dist t i r) r)) with (pos r).
  change (pos (set_nearest (nn_dist t j ro) ro)) with (pos ro).
  apply Dist_gtb_spec in Hgt.
  destruct (nn_dist_le_other t i j r ro Hro Hji) as (a & Ha & Hle).
  rewrite Ha in Hgt. lra.
Qed.

(** Two candidates five pixels apart and the cutoff 1: both survive the
    first pass, and the second. *)
Lemma cut_close_stars_twice_witness :
  cut_close_stars [mkRow 1 0 0 (Some (Fin 5)); mkRow 2 5 0 (Some (Fin 5))] 1
  = Ok (annotated [mkRow 1 0 0 (Some (Fin 5)); mkRow 2 5 0 (Some (Fin 5))]) /\
  map pos (annotated [mkRow 1 0 0 (Some (Fin 5)); mkRow 2 5 0 (Some (Fin 5))])
  = map pos [mkRow 1 0 0 (Some (Fin 5)); mkRow 2 5 0 (Some (Fin 5))].
Proof.
  apply (cut_close_stars_twice [mkRow 1 0 0 None; mkRow 2 5 0 None]);
    [|discriminate].
  rewrite cut_close_stars_filter by discriminate.
  rewrite annotated_five_apart. simpl.
  assert (E : Rgtb 5 1 = true) by (apply Rgtb_true; lra).
  rewrite E. reflexivity.
Defined.

End NeighbourFilterTwice.

(** ** photometry.py: how FWHM_estimate fails *)

Module FWHMProps.
Import Py Photometry FWHM.
Local Open Scope R_scope.

Lemma preconditions_dec (psf : PSF) :
  {square_kernel psf /\ symmetric_oversampling psf} +
  {~ (square_kernel psf /\ symmetric_oversampling psf)}.
Proof.
  unfold square_kernel, symmetric_oversampling.
  destruct (Z.eq_dec (fst (shape (data (psfmodel psf))))
                     (snd (shape (data (psfmodel psf))))) as [Hs|Hs];
    [|right; tauto].
  destruct (Z.eq_dec (fst (epsf_oversampling (psfmodel psf)))
                     (snd (epsf_oversampling (psfmodel psf)))) as [Ho|Ho];
    [left; tauto | right; tauto].
Qed.

(** [FWHM_estimate] raises in two ways only: [AssertionError] from its own
    assertions, or whatever the fitter raises, passed on unchanged; a failed
    assertion hides what the fitter would have done. *)
Theorem FWHM_estimate_raises (fit : Fitter) (psf : PSF) (e : exn) :
  FWHM_estimate fit psf = Raise e <->
  (~ (square_kernel psf /\ symmetric_oversampling psf) /\ e = AssertionError) \/
  (square_kernel psf /\ symmetric_oversampling psf /\ kernel_fit fit psf = Raise e).
Proof.
  destruct (preconditions_dec psf) as [[Hs Ho]|Hn].
  - rewrite (FWHM_estimate_asserts_pass fit psf Hs Ho). split.
    + intros H. right. split; [exact Hs|]. split; [exact Ho|].
      destruct (kernel_fit fit psf); [discriminate | congruence].
    + intros [[Hn _]|(_ & _ & H)]; [tauto|]. now rewrite H.
  - rewrite (FWHM_estimate_asserts_fail fit psf Hn). split.
    + intros [= <-]. now left.
    + intros [[_ ->]|(Hs & Ho & _)]; [reflexivity | tauto].
Qed.

End FWHMProps.

(** ** photometry.py: the smoothing kernel of make_epsf_fit *)

Module EpsfProps.
Import Py PyFacts Photometry.
Local Open Scope R_scope.

Lemma np_sum_scaled (s : R) (l : list R) :
  np_sum (map (fun v => v / s) l) = np_sum l / s.
Proof.
  induction l as [|a l IH].
  - unfold np_sum; simpl. unfold Rdiv. ring.
  - cbn [map]. rewrite !ObjectiveFacts.np_sum_cons, IH. unfold Rdiv. ring.
Qed.

Lemma np_sum_pos (l : list R) :
  l <> [] -> Forall (fun v => 0 < v) l -> 0 < np_sum l.
Proof.
  intros Hne H. induction H as [|a l Ha Hl IH]; [congruence|].
  rewrite ObjectiveFacts.np_sum_cons. destruct l as [|b l].
  - unfold np_sum; simpl. lra.
  - assert (0 < np_sum (b :: l)) by (apply IH; discriminate). lra.
Qed.

(** *** make_epsf_fit *)

Lemma np_sum2_np_div (a : ndarray) (s : R) : np_sum2 (np_div a s) = np_sum2 a / s.
Proof.
  unfold np_sum2, np_div, np_map. rewrite <- concat_map. apply np_sum_scaled.
Qed.

Lemma Forall_map_image {A B : Type} (P : B -> Prop) (f : A -> B) (l : list A) :
  (forall a, P (f a)) -> Forall P (map f l).
Proof. intros H. induction l; simpl; constructor; auto. Qed.

Lemma gauss_kernel_positive : Forall (fun v => 0 < v) (concat gauss_kernel).
Proof.
  unfold gauss_kernel, np_map. rewrite <- concat_map.
  apply Forall_map_image. intros d. apply exp_pos.
Qed.

Lemma gauss_kernel_size : length (concat gauss_kernel) = 25%nat.
Proof. reflexivity. Qed.

Lemma gauss_kernel_sum_pos : 0 < np_sum2 gauss_kernel.
Proof.
  unfold np_sum2. apply np_sum_pos; [|apply gauss_kernel_positive].
  intros H. pose proof gauss_kernel_size as Hs. rewrite H in Hs. discriminate.
Qed.

(** The smoothing kernel that [make_epsf_fit] gives to [EPSFBuilder] is a
    5x5 array of positive weights that add up to one. *)
Theorem smoothing_kernel_normalized :
  shape smoothing_kernel = (5, 5)%Z /\
  Forall (fun v => 0 < v) (concat smoothing_kernel) /\
  np_sum2 smoothing_kernel = 1.
Proof.
  pose proof gauss_kernel_sum_pos as Hpos.
  split; [reflexivity|]. split.
  - unfold smoothing_kernel, np_div, np_map. rewrite <- concat_map.
    pose proof gauss_kernel_positive as H.
    induction H as [|v l Hv Hl IH]; simpl; constructor; [|exact IH].
    apply Rdiv_lt_0_compat; assumption.
  - unfold smoothing_kernel. rewrite np_sum2_np_div. field. lra.
Qed.

End EpsfProps.

(** ** hypertuning.py: more on the objective *)

Module ObjectiveProps.
Import Py Hypertuning ObjectiveFacts.
Local Open Scope R_scope.

(** *** The loss as a function of the offsets *)

Lemma sum_of_squares_cons (a : R) (l : list R) :
  sum_of_squares (a :: l) = a * a + sum_of_squares l.
Proof. reflexivity. Qed.

Lemma sum_of_squares_zero (l : list R) :
  sum_of_squares l = 0 <-> (forall a, In a l -> a = 0).
Proof.
  induction l as [|a l IH].
  - split; [intros _ b [] | reflexivity].
  - rewrite sum_of_squares_cons.
    pose proof (sum_of_squares_nonneg l) as Hl.
    pose proof (Rle_0_sqr a) as Ha. unfold Rsqr in Ha.
    split.
    + intros H b [<-|Hb].
      * assert (Hz : a * a = 0) by lra.
        apply Rmult_integral in Hz. tauto.
      * apply IH; [lra | exact Hb].
    + intros H.
      assert (Hz : sum_of_squares l = 0)
        by (apply IH; intros b Hb; apply H; now right).
      rewrite Hz, (H a) by now left. ring.
Qed.

Lemma root_sum_of_squares_zero (l : list R) :
  root_sum_of_squares l = 0 <-> (forall a, In a l -> a = 0).
Proof.
  unfold root_sum_of_squares. rewrite <- sum_of_squares_zero. split.
  - apply sqrt_eq_0, sum_of_squares_nonneg.
  - intros ->. apply sqrt_0.
Qed.

Lemma sum_of_squares_ge (l : list R) (a : R) :
  In a l -> a * a <= sum_of_squares l.
Proof.
  induction l as [|b l IH]; [intros []|].
  rewrite sum_of_squares_cons.
  pose proof (sum_of_squares_nonneg l) as Hl.
  pose proof (Rle_0_sqr b) as Hb. unfold Rsqr in Hb.
  intros [->|Hin]; [lra|].
  specialize (IH Hin). lra.
Qed.

(** The loss is a sum over the stars, not a mean: it is at least the
    largest single offset, and a further matched row never lowers it. *)
Theorem loss_dominates_offsets (l : list R) (a : R) :
  (In a l -> Rabs a <= np_sqrt (np_sum (np_pow2 l))) /\
  np_sqrt (np_sum (np_pow2 l)) <= np_sqrt (np_sum (np_pow2 (a :: l))).
Proof.
  rewrite !loss_root_sum_of_squares. unfold root_sum_of_squares. split.
  - intros Hin. rewrite <- sqrt_Rsqr_abs. apply sqrt_le_1_alt.
    unfold Rsqr. now apply sum_of_squares_ge.
  - apply sqrt_le_1_alt. rewrite sum_of_squares_cons.
    pose proof (Rle_0_sqr a) as Ha. unfold Rsqr in Ha. lra.
Qed.

Lemma loss_dominates_offsets_witness :
  Rabs 4 <= np_sqrt (np_sum (np_pow2 [3; 4])).
Proof.
  apply (proj1 (loss_dominates_offsets [3; 4] 4)). right. now left.
Defined.

Section Objective.
Context `{lib : ThesisLib}.

(** What the optimizer is given is the integer 100 or a float that is not
    negative. *)
Theorem objective_value (cs fh : Z) (sigma : R) (it : Z) :
  objective cs fh sigma it = Ok (Int 100) \/
  exists loss, 0 <= loss /\ objective cs fh sigma it = Ok (Float loss).
Proof.
  unfold objective.
  destruct (objective_try cs fh sigma it) as [loss|e] eqn:E; [|now left].
  right. exists loss. split; [|reflexivity].
  destruct (objective_try_returned _ _ _ _ _ E) as (matched & Hm).
  apply objective_try_returns in Hm. rewrite Hm in E. injection E as <-.
  apply sqrt_pos.
Qed.

(** A matched table without rows gives the loss 0, below the penalty of a
    failed run; in general the loss is 0 exactly when every offset is. *)
Theorem objective_zero_loss (cs fh : Z) (sigma : R) (it : Z)
  (matched : list MatchedRow) :
  all_steps_return cs fh sigma it matched ->
  (matched = [] -> objective cs fh sigma it = Ok (Float 0)) /\
  (objective cs fh sigma it = Ok (Float 0) <->
   forall r, In r matched -> offset r = 0).
Proof.
  intros H. apply objective_try_returns in H.
  unfold objective. rewrite H, loss_root_sum_of_squares.
  assert (Hiff : root_sum_of_squares (map offset matched) = 0 <->
                 forall r, In r matched -> offset r = 0).
  { rewrite root_sum_of_squares_zero. split.
    - intros Hz r Hr. apply Hz. now apply in_map.
    - intros Hz a Ha. apply in_map_iff in Ha as (r & <- & Hr). now apply Hz. }
  split.
  - intros ->. f_equal. f_equal. apply Hiff. intros r [].
  - rewrite <- Hiff. split; [intros [= Hz]; exact Hz | intros ->; reflexivity].
Qed.

End Objective.

Lemma objective_zero_loss_witness :
  @objective (lib_returning []) 20 7 (3 / 10) 10 = Ok (Float 0).
Proof.
  apply (proj1 (@objective_zero_loss (lib_returning []) 20 7 (3 / 10) 10 []
                  ltac:(exists (mkConfig false 3 4 tt 25 50 3 "test_images"),
                                 tt, tt, tt, tt; repeat split))).
  reflexivity.
Defined.

(** *** The configuration handed to run_photometry *)

Lemma tuned_objective_config `{lib : ThesisLib} (c : Config Kernel) (k : Kernel)
  (cs fh it : Z) :
  tuned_config cs fh it (objective_config c k cs fh it) = true.
Proof.
  unfold tuned_config, objective_config; simpl.
  rewrite !Z.eqb_refl. simpl.
  rewrite Z.add_comm, Z.mul_comm, Z.odd_add_mul_2. reflexivity.
Qed.

(** [run_photometry] is only ever called with catalogue positions switched
    on, one photometry iteration, oversampling 1, the cutout size and the
    iteration count of the arguments, and the odd fit shape
    [2 * fitshape_half + 1]: a [run_photometry] that refuses every other
    configuration leaves the objective as it is. *)
Theorem objective_calls_tuned_config (lib : ThesisLib) (cs fh : Z) (sigma : R)
  (it : Z) :
  @objective (guard_run_photometry lib (tuned_config cs fh it)) cs fh sigma it
  = @objective lib cs fh sigma it.
Proof.
  unfold objective.
  rewrite (@objective_try_steps (guard_run_photometry lib (tuned_config cs fh it))).
  rewrite (@objective_try_steps lib).
  simpl.
  destruct Config_new as [c|e]; [|reflexivity]. simpl.
  destruct (make_gauss_kernel sigma) as [k|e]; [|reflexivity]. simpl.
  destruct (read_or_generate_image image_recipe image_name (image_folder c))
    as [[im tbl]|e]; [|reflexivity]. simpl.
  change (@objective_config (guard_run_photometry lib (tuned_config cs fh it)))
    with (@objective_config lib).
  rewrite (@tuned_objective_config lib). reflexivity.
Qed.

End ObjectiveProps.

(** ** hypertuning.py: more on the saved state *)

Module ResumeProps.
Import Py Hypertuning ResumeFacts.

Section Resume.
Variable Blob : Type.
Variable dill_load : Blob -> result Optimizer.
Variable dill_dump : Optimizer -> Blob.

(** A state file that [dill] cannot load stops the start-up with [dill]'s
    exception; the driver does not fall back to a fresh optimizer. *)
Theorem optimizer_unreadable_state (fs : gmap string Blob) (f : Blob) (e : exn) :
  fs !! result_filename = Some f -> dill_load f = Raise e ->
  optimizer Blob dill_load fs = Raise e /\
  forall o, optimizer Blob dill_load fs <> Ok o.
Proof.
  intros Hf He. rewrite (optimizer_present Blob dill_load fs f Hf), He.
  split; [reflexivity | discriminate].
Qed.

End Resume.

Lemma optimizer_unreadable_state_witness :
  optimizer unit (fun _ => Raise (Exception "truncated pickle"))
    (<[result_filename := tt]> ∅)
  = Raise (Exception "truncated pickle").
Proof.
  apply (proj1 (optimizer_unreadable_state unit
                  (fun _ => Raise (Exception "truncated pickle"))
                  (<[result_filename := tt]> ∅) tt (Exception "truncated pickle")
                  (lookup_insert_eq _ _ _) eq_refl)).
Defined.

End ResumeProps.

(** ** hypertuning.py: more on the pass over the jobs *)

Module PassProps.
Import Py Hypertuning CollectFacts.

Lemma list_remove_perm (x : Job) (l l' : list Job) :
  list_remove x l = Some l' -> Permutation l (x :: l').
Proof.
  revert l'. induction l as [|y l IH]; intros l'; simpl; [discriminate|].
  destruct (decide (x = y)) as [->|Hne]; [now intros [= <-]|].
  destruct (list_remove x l) as [l''|]; simpl; [|discriminate].
  intros [= <-]. rewrite (IH l'' eq_refl). apply perm_swap.
Qed.

Lemma list_remove_sublist (x : Job) (l l' : list Job) :
  list_remove x l = Some l' -> sublist l' l.
Proof.
  revert l'. induction l as [|y l IH]; intros l'; simpl; [discriminate|].
  destruct (decide (x = y)) as [->|Hne].
  - intros [= <-]. now apply sublist_cons.
  - destruct (list_remove x l) as [l''|]; simpl; [|discriminate].
    intros [= <-]. apply sublist_skip. now apply IH.
Qed.

Lemma list_remove_app_fresh (x : Job) (pre l : list Job) :
  ~ In x pre -> list_remove x (pre ++ x :: l) = Some (pre ++ l).
Proof.
  induction pre as [|y pre IH]; simpl; intros Hn.
  - now rewrite decide_True.
  - rewrite decide_False by (intros ->; apply Hn; now left).
    rewrite IH by (intros H; apply Hn; now right). reflexivity.
Qed.

Lemma list_remove_keeps (x y : Job) (l l' : list Job) :
  list_remove x l = Some l' -> In y l -> y <> x -> In y l'.
Proof.
  intros Hr Hin Hne.
  destruct (list_remove_other x y l l' Hr Hin) as [->|H]; [congruence | exact H].
Qed.

Lemma count_not_ready_cons (p : Pool) (job : Job) (l : list Job) :
  count_not_ready p (job :: l)
  = ((if not_ready p job then 1 else 0) + count_not_ready p l)%nat.
Proof. reflexivity. Qed.

Lemma list_remove_count_not_ready (p : Pool) (x : Job) (l l' : list Job) :
  list_remove x l = Some l' -> not_ready p x = false ->
  count_not_ready p l' = count_not_ready p l.
Proof.
  revert l'. induction l as [|y l IH]; intros l'; simpl; [discriminate|].
  destruct (decide (x = y)) as [->|Hne].
  - intros [= <-] Hx. rewrite count_not_ready_cons, Hx. reflexivity.
  - destruct (list_remove x l) as [l''|]; simpl; [|discriminate].
    intros [= <-] Hx. rewrite !count_not_ready_cons. f_equal. now apply IH.
Qed.

Lemma lookup_ready (p : Pool) (job : Job) (v : number) :
  p !! handle (result_ job) = Some v -> not_ready p job = false.
Proof.
  intros H. unfold not_ready, ready.
  rewrite bool_decide_eq_true_2 by (rewrite H; eauto). reflexivity.
Qed.

Lemma lookup_not_ready (p : Pool) (job : Job) :
  p !! handle (result_ job) = None <-> not_ready p job = true.
Proof.
  unfold not_ready, ready. rewrite negb_true_iff, bool_decide_eq_false.
  rewrite <- eq_None_not_Some. reflexivity.
Qed.

(** What every step of the pass keeps. *)
Lemma collect_from_invariants (fuel : nat) (p : Pool) :
  forall i jobs o jobs' o',
    collect_from fuel p i jobs o = Ok (jobs', o') ->
    Permutation (Xi o' ++ map args jobs') (Xi o ++ map args jobs) /\
    sublist jobs' jobs /\
    count_not_ready p jobs' = count_not_ready p jobs /\
    (forall job, In job jobs -> not_ready p job = true -> In job jobs').
Proof.
  induction fuel as [|fuel IH]; intros i jobs o jobs' o'; simpl.
  - intros [= <- <-]. repeat split; auto.
  - destruct (nth_error jobs i) as [j|] eqn:Ej;
      [|intros [= <- <-]; repeat split; auto].
    destruct (p !! handle (result_ j)) as [v|] eqn:Ev; [|apply IH].
    destruct (list_remove j jobs) as [l|] eqn:El; [|discriminate].
    intros H. destruct (IH _ _ _ _ _ H) as (Hperm & Hsub & Hcount & Hkeep).
    split; [|split; [|split]].
    + rewrite Hperm. unfold tell; simpl.
      rewrite (Permutation_map args (list_remove_perm j jobs l El)). simpl.
      rewrite <- app_assoc. simpl. reflexivity.
    + etransitivity; [exact Hsub|]. now apply (list_remove_sublist j).
    + rewrite Hcount. apply (list_remove_count_not_ready p j); [exact El|].
      now apply (lookup_ready p j v).
    + intros job Hin Hnr. apply Hkeep; [|exact Hnr].
      apply (list_remove_keeps j job jobs l El Hin).
      intros ->. rewrite (lookup_ready p j v Ev) in Hnr. discriminate.
Qed.

Lemma n_observations_perm (o o' : Optimizer) (l l' : list Job) :
  Permutation (Xi o' ++ map args l') (Xi o ++ map args l) ->
  (n_observations o' + length l' = n_observations o + length l)%nat.
Proof.
  intros H. apply Permutation_length in H.
  rewrite !length_app, !length_map in H. exact H.
Qed.

(** A pass never fails, and it loses nothing: the points the optimizer has
    been told, together with the points of the jobs still in the list, are
    after the pass what they were before it.  Each job is thus reported at
    most once, and only by leaving the list. *)
Theorem collect_conserves (p : Pool) (jobs : list Job) (o : Optimizer) :
  exists jobs' o',
    collect p jobs o = Ok (jobs', o') /\
    Permutation (Xi o' ++ map args jobs') (Xi o ++ map args jobs) /\
    (n_observations o' + length jobs' = n_observations o + length jobs)%nat.
Proof.
  destruct (collect_from_returns (length jobs) p 0 jobs o) as (jobs' & o' & H).
  exists jobs', o'. split; [exact H|].
  destruct (collect_from_invariants _ _ _ _ _ _ _ H) as (Hperm & _).
  split; [exact Hperm | now apply n_observations_perm].
Qed.

(** A pass leaves the running jobs alone: what remains is the old list with
    some jobs taken out, every job that had not finished is still there, and
    the number of unfinished jobs, which the throttle compares with the pool
    size, is unchanged. *)
Theorem collect_keeps_running_jobs (p : Pool) (jobs jobs' : list Job)
  (o o' : Optimizer) :
  collect p jobs o = Ok (jobs', o') ->
  sublist jobs' jobs /\
  (forall job, In job jobs -> not_ready p job = true -> In job jobs') /\
  count_not_ready p jobs' = count_not_ready p jobs.
Proof.
  intros H. destruct (collect_from_invariants _ _ _ _ _ _ _ H) as (_ & Hs & Hc & Hk).
  auto.
Qed.

Lemma collect_keeps_running_jobs_witness :
  sublist [job_b; job_c] [job_a; job_b; job_c] /\
  (forall job, In job [job_a; job_b; job_c] -> not_ready two_finished job = true ->
               In job [job_b; job_c]) /\
  count_not_ready two_finished [job_b; job_c]
  = count_not_ready two_finished [job_a; job_b; job_c].
Proof.
  apply (collect_keeps_running_jobs two_finished [job_a; job_b; job_c] [job_b; job_c]
           fresh_optimizer (tell fresh_optimizer (args job_a) (Float 2))).
  apply collect_three.
Defined.

(** A job that a pass takes from the list had finished, and the optimizer
    has been told its point. *)
Theorem collect_removed_were_ready (p : Pool) (jobs jobs' : list Job)
  (o o' : Optimizer) (job : Job) :
  collect p jobs o = Ok (jobs', o') ->
  In job jobs -> ~ In job jobs' ->
  ready p (result_ job) = true /\ told o' job.
Proof.
  intros H. now apply (collect_from_removed_told (length jobs) p job 0 jobs o).
Qed.

Lemma collect_removed_were_ready_witness :
  ready two_finished (result_ job_a) = true /\
  told (tell fresh_optimizer (args job_a) (Float 2)) job_a.
Proof.
  apply (collect_removed_were_ready two_finished [job_a; job_b; job_c]
           [job_b; job_c] fresh_optimizer _ job_a (collect_three fresh_optimizer)).
  - now left.
  - intros [H|[H|[]]]; discriminate H.
Defined.

End PassProps.

(** ** hypertuning.py: which jobs a pass skips, and the whole run *)

Module DriverProps.
Import Py Hypertuning CollectFacts PassProps ResumeFacts.

Lemma collect_from_past_end (fuel : nat) (p : Pool) (i : nat) (jobs : list Job)
  (o : Optimizer) :
  (length jobs <= i)%nat -> collect_from fuel p i jobs o = Ok (jobs, o).
Proof.
  intros H. destruct fuel as [|fuel]; simpl; [reflexivity|].
  destruct (nth_error jobs i) eqn:E; [|reflexivity].
  assert (i < length jobs)%nat by (apply nth_error_Some; congruence). lia.
Qed.

Lemma nth_error_middle (pre rest : list Job) (j : Job) :
  nth_error (pre ++ j :: rest) (length pre) = Some j.
Proof. rewrite nth_error_app2, Nat.sub_diag by lia. reflexivity. Qed.

(** The index walk over the shrinking list, with [pre] the part already
    behind the index, is the walk of [collect_skipping] over the rest. *)
Lemma collect_from_skipping (p : Pool) (fuel : nat) :
  forall rest pre o,
    List.NoDup (pre ++ rest) -> (length rest <= fuel)%nat ->
    collect_from fuel p (length pre) (pre ++ rest) o
    = Ok (pre ++ fst (collect_skipping p rest o), snd (collect_skipping p rest o)).
Proof.
  induction fuel as [|fuel IH]; intros rest pre o Hnd Hlen.
  - destruct rest; [|simpl in Hlen; lia]. reflexivity.
  - destruct rest as [|j rest].
    + apply collect_from_past_end. rewrite app_nil_r. lia.
    + cbn [collect_from]. rewrite nth_error_middle. cbn [collect_skipping].
      destruct (p !! handle (result_ j)) as [v|].
      * rewrite list_remove_app_fresh.
        2:{ intros Hin. apply List.NoDup_remove_2 in Hnd. apply Hnd.
            apply in_or_app. now left. }
        apply List.NoDup_remove_1 in Hnd.
        destruct rest as [|k rest].
        -- cbn [fst snd]. rewrite !app_nil_r. apply collect_from_past_end. lia.
        -- specialize (IH rest (pre ++ [k]) (tell o (args j) v)).
           rewrite <- app_assoc, length_app in IH. simpl in IH.
           replace (length pre + 1)%nat with (S (length pre)) in IH by lia.
           rewrite IH; [|exact Hnd | simpl in Hlen; lia].
           simpl. now rewrite <- app_assoc.
      * specialize (IH rest (pre ++ [j]) o).
        rewrite <- app_assoc, length_app in IH. simpl in IH.
        replace (length pre + 1)%nat with (S (length pre)) in IH by lia.
        rewrite IH; [|exact Hnd | simpl in Hlen; lia].
        simpl. now rewrite <- app_assoc.
Qed.

Lemma collect_distinct (p : Pool) (jobs : list Job) (o : Optimizer) :
  List.NoDup jobs -> collect p jobs o = Ok (collect_skipping p jobs o).
Proof.
  intros Hnd. unfold collect.
  pose proof (collect_from_skipping p (length jobs) jobs [] o Hnd (le_n _)) as H.
  simpl in H. rewrite H. now destruct (collect_skipping p jobs o).
Qed.

Lemma collect_skipping_sublist_pair (p : Pool) (l : list Job) :
  (forall o, sublist (fst (collect_skipping p l o)) l) /\
  (forall j o, sublist (fst (collect_skipping p (j :: l) o)) (j :: l)).
Proof.
  induction l as [|a l [IH1 IH2]].
  - split; [intros o; constructor|].
    intros j o. cbn [collect_skipping].
    destruct (p !! handle (result_ j)); cbn [fst];
      [apply sublist_nil_l | apply sublist_skip; constructor].
  - split; [intros o; apply IH2|].
    intros j o. cbn [collect_skipping].
    destruct (p !! handle (result_ j)); cbn [fst].
    + apply sublist_cons, sublist_skip, IH1.
    + apply sublist_skip, IH2.
Qed.

Lemma collect_skipping_sublist (p : Pool) (l : list Job) (o : Optimizer) :
  sublist (fst (collect_skipping p l o)) l.
Proof. apply collect_skipping_sublist_pair. Qed.

(** On a list of distinct jobs the pass does exactly this: it walks down the
    list, leaves an unfinished job where it is, and on a finished job tells
    the optimizer, drops the job and steps over the job behind it, finished
    or not, without looking at it.  So a finished job at the head of the
    list is always collected, and the job after it always stays. *)
Theorem collect_is_collect_skipping (p : Pool) (jobs : list Job) (o : Optimizer) :
  List.NoDup jobs ->
  collect p jobs o = Ok (collect_skipping p jobs o) /\
  (forall a b rest v,
     jobs = a :: b :: rest -> p !! handle (result_ a) = Some v ->
     exists rest' o',
       collect p jobs o = Ok (b :: rest', o') /\ told o' a /\ ~ In a (b :: rest')).
Proof.
  intros Hnd. split; [now apply collect_distinct|].
  intros a b rest v -> Hv.
  pose proof (collect_distinct p (a :: b :: rest) o Hnd) as Hc.
  cbn [collect_skipping] in Hc. rewrite Hv in Hc.
  exists (fst (collect_skipping p rest (tell o (args a) v))),
         (snd (collect_skipping p rest (tell o (args a) v))).
  split; [exact Hc|].
  assert (Hout : ~ In a (b :: fst (collect_skipping p rest (tell o (args a) v)))).
  { apply List.NoDup_cons_iff in Hnd as [Hna _]. intros [->|Hin].
    - apply Hna. now left.
    - apply Hna. right. apply list_elem_of_In.
      apply (elem_of_sublist (fst (collect_skipping p rest (tell o (args a) v)))).
      + now apply list_elem_of_In.
      + apply collect_skipping_sublist. }
  split; [|exact Hout].
  apply (collect_from_removed_told _ p a 0 (a :: b :: rest) o _ _ Hc);
    [now left | exact Hout].
Qed.

Lemma collect_is_collect_skipping_witness :
  collect two_finished [job_a; job_b; job_c] fresh_optimizer
  = Ok (collect_skipping two_finished [job_a; job_b; job_c] fresh_optimizer).
Proof.
  apply collect_is_collect_skipping.
  repeat constructor; simpl; intros H;
    repeat (destruct H as [H|H]; [discriminate H|]); exact H.
Defined.

(** *** The whole run *)

Lemma Xi_tell_all (value : AsyncResult -> number) (jobs : list Job) :
  forall o, Xi (tell_all value jobs o) = Xi o ++ map args jobs.
Proof.
  unfold tell_all. induction jobs as [|job jobs IH]; intros o; simpl.
  - now rewrite app_nil_r.
  - rewrite IH. simpl. now rewrite <- app_assoc.
Qed.

Section Driver.
Variable ask : nat -> Optimizer -> list number.
Variable pool_at : nat -> Pool.
Variable value : AsyncResult -> number.

(** After [n] rounds the told points and the points of the outstanding jobs
    are those from before the rounds and the [n] points asked for. *)
Lemma submit_and_collect_points (n : nat) :
  forall i jobs o, exists jobs' o',
    submit_and_collect ask pool_at n i jobs o = Ok (jobs', o') /\
    length (asked_points ask pool_at n i jobs o) = n /\
    Permutation (Xi o' ++ map args jobs')
                (Xi o ++ map args jobs ++ asked_points ask pool_at n i jobs o).
Proof.
  induction n as [|n IH]; intros i jobs o.
  - exists jobs, o. split; [reflexivity|]. split; [reflexivity|].
    simpl. now rewrite app_nil_r.
  - cbn [submit_and_collect asked_points].
    destruct (collect_from_returns
                (length (jobs ++ [mkJob (mkAsyncResult i) (ask i o)]))
                (pool_at i) 0 (jobs ++ [mkJob (mkAsyncResult i) (ask i o)]) o)
      as (jobs1 & o1 & H1).
    unfold collect. rewrite H1. simpl.
    destruct (collect_from_invariants _ _ _ _ _ _ _ H1) as (Hperm & _).
    destruct (IH (S i) jobs1 o1) as (jobs' & o' & H & Hlen & Hp).
    exists jobs', o'.
    split; [exact H|]. split; [now rewrite Hlen|].
    rewrite Hp, app_assoc, Hperm.
    rewrite map_app; simpl. rewrite <- !app_assoc. simpl.
    apply Permutation_app_head, Permutation_app_head.
    apply Permutation_refl.
Qed.

(** Round by round the driver's list holds distinct jobs, so every pass of
    the run is the skipping walk: a round appends the new job, walks the
    list with [collect_skipping], and hands a list of distinct jobs on to
    the next round. *)
Theorem round_is_skipping (n i : nat) (jobs : list Job) (o : Optimizer) :
  submitted_before i jobs ->
  submit_and_collect ask pool_at (S n) i jobs o
  = submit_and_collect ask pool_at n (S i)
      (fst (collect_skipping (pool_at i)
              (jobs ++ [mkJob (mkAsyncResult i) (ask i o)]) o))
      (snd (collect_skipping (pool_at i)
              (jobs ++ [mkJob (mkAsyncResult i) (ask i o)]) o)) /\
  submitted_before (S i)
    (fst (collect_skipping (pool_at i)
            (jobs ++ [mkJob (mkAsyncResult i) (ask i o)]) o)).
Proof.
  intros [Hnd Hlt].
  assert (Hnd1 : List.NoDup (jobs ++ [mkJob (mkAsyncResult i) (ask i o)])).
  { apply List.NoDup_app; [exact Hnd | repeat constructor; intros [] |].
    intros a Ha [<-|[]].
    apply list_elem_of_In in Ha.
    rewrite Forall_forall in Hlt. apply Hlt in Ha. simpl in Ha. lia. }
  assert (Hlt1 : Forall (fun job => (handle (result_ job) < S i)%nat)
                   (jobs ++ [mkJob (mkAsyncResult i) (ask i o)])).
  { apply Forall_app. split.
    - eapply Forall_impl; [exact Hlt|]. simpl. intros; lia.
    - repeat constructor. }
  split.
  - cbn [submit_and_collect]. now rewrite (collect_distinct _ _ o Hnd1).
  - pose proof (collect_skipping_sublist (pool_at i)
                  (jobs ++ [mkJob (mkAsyncResult i) (ask i o)]) o) as Hsub.
    split.
    + apply NoDup_ListNoDup. eapply sublist_NoDup; [|exact Hsub].
      now apply NoDup_ListNoDup.
    + rewrite Forall_forall. intros job Hjob.
      rewrite Forall_forall in Hlt1. apply Hlt1.
      now apply (elem_of_sublist _ _ _ Hjob).
Qed.

Lemma main_loop_points (o : Optimizer) :
  exists o',
    main_loop ask pool_at value o = Ok o' /\
    length (asked_points ask pool_at 500 0 [] o) = 500%nat /\
    Permutation (Xi o') (Xi o ++ asked_points ask pool_at 500 0 [] o).
Proof.
  unfold main_loop.
  destruct (submit_and_collect_points 500 0 [] o)
    as (jobs & o1 & H & Hlen & Hp).
  rewrite H. exists (tell_all value jobs o1).
  split; [reflexivity|]. split; [exact Hlen|].
  rewrite Xi_tell_all. exact Hp.
Qed.

Lemma main_loop_count (o : Optimizer) :
  exists o', main_loop ask pool_at value o = Ok o' /\
             n_observations o' = (n_observations o + 500)%nat.
Proof.
  destruct (main_loop_points o) as (o' & H & Hlen & Hp).
  exists o'. split; [exact H|].
  apply Permutation_length in Hp. rewrite length_app, Hlen in Hp. exact Hp.
Qed.

(** Without an interrupt the run never fails, and by its end the optimizer
    holds what it held at the start and, once each, the 500 points that
    [ask] gave in the course of the run, whatever the workers' timing: the
    jobs that the passes stepped over are picked up later or by the final
    loop, and none is reported twice. *)
Theorem main_loop_tells_every_evaluation (o : Optimizer) :
  exists o',
    main_loop ask pool_at value o = Ok o' /\
    length (asked_points ask pool_at 500 0 [] o) = 500%nat /\
    Permutation (Xi o') (Xi o ++ asked_points ask pool_at 500 0 [] o) /\
    n_observations o' = (n_observations o + 500)%nat.
Proof.
  destruct (main_loop_points o) as (o' & H & Hlen & Hp).
  exists o'. repeat split; try assumption.
  apply Permutation_length in Hp. rewrite length_app, Hlen in Hp. exact Hp.
Qed.

End Driver.

(** Round 2 with the jobs of rounds 0 and 1 finished: the new job joins
    them, the pass reports the first and steps over the second. *)
Lemma round_is_skipping_witness :
  submit_and_collect (fun _ _ => args job_c) (fun _ => two_finished) 1 2
    [job_a; job_b] fresh_optimizer
  = Ok ([job_b; job_c], tell fresh_optimizer (args job_a) (Float 2)) /\
  submitted_before 3 [job_b; job_c].
Proof.
  assert (Hskip : collect_skipping two_finished [job_a; job_b; job_c] fresh_optimizer
                  = ([job_b; job_c], tell fresh_optimizer (args job_a) (Float 2))).
  { cbn [collect_skipping]. rewrite two_finished_a, two_finished_c. reflexivity. }
  destruct (round_is_skipping (fun _ _ => args job_c) (fun _ => two_finished)
              0 2 [job_a; job_b] fresh_optimizer) as [Hround Hnext].
  - split.
    + repeat constructor; simpl; intros H;
        repeat (destruct H as [H|H]; [discriminate H|]); exact H.
    + repeat constructor.
  - change ([job_a; job_b] ++ [mkJob (mkAsyncResult 2) (args job_c)])
      with [job_a; job_b; job_c] in Hround, Hnext.
    rewrite Hskip in Hround, Hnext. split; [exact Hround | exact Hnext].
Defined.

Section Script.
Variable Blob : Type.
Variable dill_load : Blob -> result Optimizer.
Variable dill_dump : Optimizer -> Blob.
Hypothesis dill_roundtrip : forall o, dill_load (dill_dump o) = Ok o.

(** Run after run the observations add up: started in a directory without
    a state file, the script leaves a state with 500 observations, and the
    next run, whatever it is asked and however its workers behave, leaves
    one with 1000. *)
Theorem script_accumulates (fs : gmap string Blob)
  (ask : nat -> Optimizer -> list number) (pool_at : nat -> Pool)
  (value : AsyncResult -> number) :
  fs !! result_filename = None ->
  exists fs1 o1,
    script Blob dill_load dill_dump ask pool_at value fs = Ok fs1 /\
    optimizer Blob dill_load fs1 = Ok o1 /\ n_observations o1 = 500%nat /\
    forall ask' pool_at' value', exists fs2 o2,
      script Blob dill_load dill_dump ask' pool_at' value' fs1 = Ok fs2 /\
      optimizer Blob dill_load fs2 = Ok o2 /\ n_observations o2 = 1000%nat.
Proof.
  intros Hnone. unfold script.
  rewrite (optimizer_absent Blob dill_load fs Hnone). simpl.
  destruct (main_loop_count ask pool_at value
              (Optimizer_new
                 [Integer 5 40; Integer 5 15; Real (20 / 100) (4 / 10); Integer 5 30]
                 12 1 "RF" 15 "random")) as (o1 & H1 & Hc1).
  rewrite H1. simpl.
  exists (save Blob dill_dump fs o1), o1.
  split; [reflexivity|].
  split; [now apply optimizer_after_save|].
  split; [rewrite Hc1; reflexivity|].
  intros ask' pool_at' value'.
  rewrite (optimizer_after_save Blob dill_load dill_dump dill_roundtrip). simpl.
  destruct (main_loop_count ask' pool_at' value' o1) as (o2 & H2 & Hc2).
  rewrite H2. simpl.
  exists (save Blob dill_dump (save Blob dill_dump fs o1) o2), o2.
  split; [reflexivity|].
  split; [now apply optimizer_after_save|].
  rewrite Hc2, Hc1. reflexivity.
Qed.

End Script.

Lemma script_accumulates_witness :
  exists fs1 o1,
    script Optimizer Ok (fun o => o) (fun _ _ => [Int 20; Int 7; Float 3; Int 10])
      (fun _ => ∅) (fun _ => Int 100) ∅ = Ok fs1 /\
    optimizer Optimizer Ok fs1 = Ok o1 /\ n_observations o1 = 500%nat /\
    forall ask' pool_at' value', exists fs2 o2,
      script Optimizer Ok (fun o => o) ask' pool_at' value' fs1 = Ok fs2 /\
      optimizer Optimizer Ok fs2 = Ok o2 /\ n_observations o2 = 1000%nat.
Proof.
  apply (script_accumulates Optimizer Ok (fun o => o) (fun o => eq_refl) ∅).
  apply lookup_empty.
Defined.

End DriverProps.
